(** * patil.ai voice assistant: local response engine, chat proxy, controller

    A shallow embedding of the three TypeScript sources of the repository:

    - [src/components/VoiceAssistant.tsx]: the keyword/regex response
      engine ([generateResponse]) of the local variant;
    - [supabase/functions/chat/index.ts]: the chat proxy (edge function);
    - the remote variant of [VoiceAssistant.tsx]: the conversation
      controller ([toggleListening], [processCommand], recognizer callbacks).

    Strings are sequences of 8-bit characters ([String.string]); JavaScript
    numbers are IEEE 754 binary64 values ([spec_float] at precision 53 and
    exponent bound 1024, the Standard Library's executable specification). *)

From Stdlib Require Import ZArith QArith Qround Qabs.
From Stdlib Require Import String Ascii List Bool Lia.
From Stdlib Require Import SpecFloat DecimalString.
Import ListNotations.

Open Scope string_scope.

(* ================================================================== *)
(** * JavaScript strings *)
(* ================================================================== *)

Module JSString.

(** [s.startsWith(p)], also returning what follows the prefix. *)
Fixpoint stripPrefix (p s : string) : option string :=
  match p, s with
  | EmptyString, _ => Some s
  | String a p', String b s' =>
      if Ascii.eqb a b then stripPrefix p' s' else None
  | String _ _, EmptyString => None
  end.

Definition startsWith (s p : string) : bool :=
  match stripPrefix p s with Some _ => true | None => false end.

(** [s.includes(sub)]: [sub] occurs in [s] at some position. *)
Fixpoint includes (s sub : string) : bool :=
  startsWith s sub ||
  match s with
  | EmptyString => false
  | String _ s' => includes s' sub
  end.

Definition isUpper (c : ascii) : bool :=
  let n := nat_of_ascii c in (65 <=? n)%nat && (n <=? 90)%nat.

Definition lowerChar (c : ascii) : ascii :=
  if isUpper c then ascii_of_nat (nat_of_ascii c + 32) else c.

(** [s.toLowerCase()] for a string of ASCII characters: the letters A to
    Z are mapped, every other character is kept. Characters outside ASCII
    are kept too, where the platform maps them by the Unicode case tables;
    what is proved of lowered text holds as stated for ASCII input. *)
Fixpoint toLowerCase (s : string) : string :=
  match s with
  | EmptyString => EmptyString
  | String c s' => String (lowerChar c) (toLowerCase s')
  end.

(** The class [\d] of a regular expression without the unicode flag. *)
Definition isDigit (c : ascii) : bool :=
  let n := nat_of_ascii c in (48 <=? n)%nat && (n <=? 57)%nat.

(** The longest prefix of [s] made of decimal digits, and what follows it. *)
Fixpoint digitPrefix (s : string) : string :=
  match s with
  | EmptyString => EmptyString
  | String c s' => if isDigit c then String c (digitPrefix s') else EmptyString
  end.

Fixpoint dropDigits (s : string) : string :=
  match s with
  | EmptyString => EmptyString
  | String c s' => if isDigit c then dropDigits s' else s
  end.

(** Every character of [s] satisfies [p]. *)
Fixpoint all (p : ascii -> bool) (s : string) : bool :=
  match s with
  | EmptyString => true
  | String c s' => p c && all p s'
  end.

Fixpoint repeat0 (n : nat) : string :=
  match n with
  | O => EmptyString
  | S n' => String "0" (repeat0 n')
  end.

End JSString.

(* ================================================================== *)
(** * JavaScript numbers *)
(* ================================================================== *)

Module JSNumber.

Import JSString.

Definition prec : Z := 53.
Definition emax : Z := 1024.

(** The Number type: binary64. *)
Definition Number : Type := spec_float.

Definition NaN : Number := S754_nan.
Definition Infinity : Number := S754_infinity false.

(** The Number value for a mathematical integer (round to nearest, ties
    to even; overflow gives an infinity). *)
Definition ofZ (z : Z) : Number := binary_normalize prec emax z 0 false.

Definition add : Number -> Number -> Number := SFadd prec emax.
Definition sub : Number -> Number -> Number := SFsub prec emax.
Definition mul : Number -> Number -> Number := SFmul prec emax.
Definition div : Number -> Number -> Number := SFdiv prec emax.

(** Value of a run of decimal digits read left to right. *)
Fixpoint digitsValue (acc : Z) (s : string) : Z :=
  match s with
  | EmptyString => acc
  | String c s' =>
      digitsValue (10 * acc + (Z.of_nat (nat_of_ascii c) - 48)) s'
  end.

(** [parseInt(s)] for a string that starts with neither white space, a
    sign nor a radix prefix (the captures of [\d+] are such strings): the
    leading decimal digits are read, and [NaN] is returned when there is
    none. *)
Definition parseInt (s : string) : Number :=
  match digitPrefix s with
  | EmptyString => NaN
  | ds => ofZ (digitsValue 0 ds)
  end.

(** ** Number::toString, radix 10 *)

Definition decimal (z : Z) : string :=
  NilZero.string_of_uint (N.to_uint (Z.to_N z)).

Definition pow10 (n : Z) : Q := Qpower (10 # 1) n.
Definition pow2 (n : Z) : Q := Qpower (2 # 1) n.

Definition Qltb (a b : Q) : bool :=
  match Qcompare a b with Lt => true | _ => false end.

(** Least [n' >= n] with [x < 10^n'], searched upwards. *)
Fixpoint decimalExponent (fuel : nat) (x : Q) (n : Z) : Z :=
  match fuel with
  | O => n
  | S fuel' =>
      if Qltb x (pow10 n) then n else decimalExponent fuel' x (n + 1)
  end.

(** The reals that round to the binary64 value [m * 2^e]: the interval
    between the midpoints to its two neighbours, closed when [m] is even. *)
Definition roundsTo (m : positive) (e : Z) (v : Q) : bool :=
  let hi := (inject_Z (2 * Zpos m + 1) * pow2 (e - 1))%Q in
  let lo :=
    if (Zpos m =? 2 ^ 52)%Z && (-1074 <? e)%Z
    then (inject_Z (4 * Zpos m - 1) * pow2 (e - 2))%Q
    else (inject_Z (2 * Zpos m - 1) * pow2 (e - 1))%Q in
  if Z.even (Zpos m)
  then Qle_bool lo v && Qle_bool v hi
  else Qltb lo v && Qltb v hi.

(** For [k] digits: the integer [s] with [s * 10^(n-k)] rounding to the
    value and closest to it (the even one on a tie), if there is one. *)
Definition digitsAt (m : positive) (e : Z) (n k : Z) : option Z :=
  let x := (inject_Z (Zpos m) * pow2 e)%Q in
  let scale := pow10 (n - k) in
  let s1 := Qfloor (x / scale) in
  let s2 := (s1 + 1)%Z in
  let v s := (inject_Z s * scale)%Q in
  let dist s := Qabs (v s - x) in
  match roundsTo m e (v s1), roundsTo m e (v s2) with
  | true, true =>
      match Qcompare (dist s1) (dist s2) with
      | Lt => Some s1
      | Gt => Some s2
      | Eq => Some (if Z.even s1 then s1 else s2)
      end
  | true, false => Some s1
  | false, true => Some s2
  | false, false => None
  end.

(** The triple [(n, k, s)] of Number::toString with [k] as small as
    possible, [k] being tried from [k] upwards. *)
Fixpoint shortest (fuel : nat) (m : positive) (e : Z) (n k : Z) : Z * Z * Z :=
  match fuel with
  | O => (n, k, 0%Z)
  | S fuel' =>
      match digitsAt m e n k with
      | Some s =>
          if (s =? 10 ^ k)%Z then ((n + 1)%Z, k, (10 ^ (k - 1))%Z) else (n, k, s)
      | None => shortest fuel' m e n (k + 1)
      end
  end.

Definition substr (from len : Z) (s : string) : string :=
  String.substring (Z.to_nat from) (Z.to_nat len) s.

Definition exponentPart (n : Z) : string :=
  "e" ++ (if (n - 1 <? 0)%Z then "-" else "+") ++ decimal (Z.abs (n - 1)).

Definition formatDigits (n k s : Z) : string :=
  let ds := decimal s in
  if (k <=? n)%Z && (n <=? 21)%Z then ds ++ repeat0 (Z.to_nat (n - k))
  else if (0 <? n)%Z && (n <=? 21)%Z then substr 0 n ds ++ "." ++ substr n (k - n) ds
  else if (-6 <? n)%Z && (n <=? 0)%Z then "0." ++ repeat0 (Z.to_nat (- n)) ++ ds
  else if (k =? 1)%Z then ds ++ exponentPart n
  else substr 0 1 ds ++ "." ++ substr 1 (k - 1) ds ++ exponentPart n.

Definition finiteToString (m : positive) (e : Z) : string :=
  let x := (inject_Z (Zpos m) * pow2 e)%Q in
  let n := decimalExponent 640 x (-324) in
  let '(n', k, s) := shortest 17 m e n 1 in
  formatDigits n' k s.

(** [String(x)], as a template literal applies it to a number. *)
Definition toString (x : Number) : string :=
  match x with
  | S754_nan => "NaN"
  | S754_zero _ => "0"
  | S754_infinity false => "Infinity"
  | S754_infinity true => "-Infinity"
  | S754_finite false m e => finiteToString m e
  | S754_finite true m e => "-" ++ finiteToString m e
  end.

End JSNumber.

(* ================================================================== *)
(** * Regular expressions: a backtracking matcher *)
(* ================================================================== *)

Module RegExp.

Import JSString.

(** The fragment of the pattern language the sources use. *)
Inductive regex : Type :=
| Lit (l : string)            (* a run of literal characters *)
| Digits                      (* \d+, greedy *)
| Alt (r1 r2 : regex)         (* r1|r2, left alternative first *)
| Cat (r1 r2 : regex)         (* r1 followed by r2 *)
| Group (i : nat) (r : regex) (* the i-th capturing group *).

(** Captured substrings, most recent binding first. *)
Definition captures : Type := list (nat * string).

Fixpoint capture (i : nat) (cs : captures) : option string :=
  match cs with
  | [] => None
  | (j, s) :: cs' => if Nat.eqb i j then Some s else capture i cs'
  end.

Section Matcher.

Context {R : Type}.

(** [\d*] then the continuation: the longest run first, giving characters
    back one at a time while the continuation fails. *)
Fixpoint many (s : string) (k : string -> option R) : option R :=
  match s with
  | String c s' =>
      if isDigit c
      then match many s' k with
           | Some r => Some r
           | None => k s
           end
      else k s
  | EmptyString => k s
  end.

Definition many1 (s : string) (k : string -> option R) : option R :=
  match s with
  | String c s' => if isDigit c then many s' k else None
  | EmptyString => None
  end.

(** What a match starting at [s] and ending where [rest] begins consumed. *)
Definition consumed (s rest : string) : string :=
  String.substring 0 (String.length s - String.length rest) s.

(** [matchAt r s cs k]: match [r] at the start of [s], then continue with
    [k] on the rest; [None] makes the matcher backtrack. *)
Fixpoint matchAt (r : regex) (s : string) (cs : captures)
  (k : string -> captures -> option R) : option R :=
  match r with
  | Lit l =>
      match stripPrefix l s with
      | Some rest => k rest cs
      | None => None
      end
  | Digits => many1 s (fun rest => k rest cs)
  | Alt r1 r2 =>
      match matchAt r1 s cs k with
      | Some x => Some x
      | None => matchAt r2 s cs k
      end
  | Cat r1 r2 => matchAt r1 s cs (fun rest cs' => matchAt r2 rest cs' k)
  | Group i r =>
      matchAt r s cs (fun rest cs' => k rest ((i, consumed s rest) :: cs'))
  end.

End Matcher.

(** [s.match(r)] for a pattern without the global flag: the match at the
    leftmost position where there is one, as its captures. *)
Fixpoint exec (r : regex) (s : string) : option captures :=
  match matchAt r s [] (fun _ cs => Some cs) with
  | Some cs => Some cs
  | None =>
      match s with
      | EmptyString => None
      | String _ s' => exec r s'
      end
  end.

End RegExp.

(* ================================================================== *)
(** * The local response engine (VoiceAssistant.tsx, local variant) *)
(* ================================================================== *)

Module LocalEngine.

Import JSString JSNumber RegExp.

(** What [new Date()] shows through the two formatting calls of the
    engine; both depend on the clock and on the locale of the browser. *)
Record Date : Type := {
  toLocaleTimeString : string;
  (** [toLocaleDateString('en-US', { weekday: 'long', year: 'numeric',
      month: 'long', day: 'numeric' })] *)
  toLocaleDateString : string
}.

(** [/what is (\d+) (plus|minus|times|divided by) (\d+)/] *)
Definition mathPattern : regex :=
  Cat (Lit "what is ")
 (Cat (Group 1 Digits)
 (Cat (Lit " ")
 (Cat (Group 2 (Alt (Lit "plus") (Alt (Lit "minus")
                (Alt (Lit "times") (Lit "divided by")))))
 (Cat (Lit " ")
      (Group 3 Digits))))).

(** [command.match(...)], destructured as [[, num1, operation, num2]]. *)
Definition mathMatch (command : string) : option (string * string * string) :=
  match exec mathPattern command with
  | Some cs =>
      match capture 1 cs, capture 2 cs, capture 3 cs with
      | Some num1, Some operation, Some num2 => Some (num1, operation, num2)
      | _, _, _ => None
      end
  | None => None
  end.

(** The body of [if (mathMatch) { ... }]. *)
Definition mathReply (num1 operation num2 : string) : string :=
  let a := parseInt num1 in
  let b := parseInt num2 in
  let result :=
    if String.eqb operation "plus" then add a b
    else if String.eqb operation "minus" then sub a b
    else if String.eqb operation "times" then mul a b
    else if String.eqb operation "divided by" then div a b
    else ofZ 0 in
  toString a ++ " " ++ operation ++ " " ++ toString b ++ " equals "
    ++ toString result ++ ".".

Definition greeting : string :=
  "Hello! I'm your personal voice assistant. How can I help you today?".

Definition weatherReply : string :=
  "I'd love to help with the weather, but I need to be connected to a weather service. For now, I recommend checking your local weather app.".

Definition reminderReply : string :=
  "I've noted your reminder request. In a full implementation, I would set up notifications for you.".

Definition musicReply : string :=
  "I'd be happy to play music for you. In a full implementation, I would connect to your music streaming service.".

Definition calculateReply : string :=
  "I can help with calculations. Try asking me specific math questions like 'what is 25 times 4?'".

Definition searchReply : string :=
  "I can help you search for information. In a full implementation, I would perform web searches and provide results.".

Definition fallback (command : string) : string :=
  "I heard you say: '" ++ command ++ "'. I'm still learning, but I can help with time, date, simple math, and basic commands. What would you like me to do?".

Definition generateResponse (now : Date) (command : string) : string :=
  if includes command "hello" || includes command "hi" then greeting
  else if includes command "time" then
    "The current time is " ++ toLocaleTimeString now ++ "."
  else if includes command "date" then
    "Today is " ++ toLocaleDateString now ++ "."
  else if includes command "weather" then weatherReply
  else if includes command "remind" || includes command "reminder" then
    reminderReply
  else if includes command "play music" || includes command "play song" then
    musicReply
  else if includes command "calculate" || includes command "math" then
    calculateReply
  else if includes command "search" || includes command "look up" then
    searchReply
  else
    match mathMatch command with
    | Some (num1, operation, num2) => mathReply num1 operation num2
    | None => fallback command
    end.

(** The reply [processCommand] computes for a recognized utterance:
    [generateResponse(command.toLowerCase())]. *)
Definition respond (now : Date) (command : string) : string :=
  generateResponse now (toLowerCase command).

(** The branches of the cascade, in source order. *)
Inductive Branch : Type :=
| Greeting | Time | DateBranch | Weather | Reminder | Music
| Calculate | Search
| Arithmetic (num1 operation num2 : string)
| Fallback.

(** The branch of [generateResponse] whose condition is the first to hold. *)
Definition branchTaken (command : string) : Branch :=
  if includes command "hello" || includes command "hi" then Greeting
  else if includes command "time" then Time
  else if includes command "date" then DateBranch
  else if includes command "weather" then Weather
  else if includes command "remind" || includes command "reminder" then
    Reminder
  else if includes command "play music" || includes command "play song" then
    Music
  else if includes command "calculate" || includes command "math" then
    Calculate
  else if includes command "search" || includes command "look up" then
    Search
  else
    match mathMatch command with
    | Some (num1, operation, num2) => Arithmetic num1 operation num2
    | None => Fallback
    end.

(** What [generateResponse] returns from each branch. *)
Definition reply (now : Date) (command : string) (b : Branch) : string :=
  match b with
  | Greeting => greeting
  | Time => "The current time is " ++ toLocaleTimeString now ++ "."
  | DateBranch => "Today is " ++ toLocaleDateString now ++ "."
  | Weather => weatherReply
  | Reminder => reminderReply
  | Music => musicReply
  | Calculate => calculateReply
  | Search => searchReply
  | Arithmetic num1 operation num2 => mathReply num1 operation num2
  | Fallback => fallback command
  end.

(** One of the eight keyword conditions that precede the pattern holds. *)
Definition keywordMatched (command : string) : bool :=
  match branchTaken command with
  | Arithmetic _ _ _ | Fallback => false
  | _ => true
  end.

(** The four operation words of the pattern. *)
Definition operations : list string := ["plus"; "minus"; "times"; "divided by"].


(** A numeral [x] is a non-negative decimal integer literal: a non-empty
    run of digits. *)
Definition integerLiteral (x : string) : bool :=
  all isDigit x && negb (String.eqb x "").

(** A numeral starts with a digit (it is unsigned). *)
Definition startsWithDigit (x : string) : bool :=
  negb (String.eqb (digitPrefix x) "").

(** The question "what is [x] [operation] [y]". *)
Definition question (x operation y : string) : string :=
  "what is " ++ x ++ " " ++ operation ++ " " ++ y.


(** A clock reading, for examples. *)
Definition sampleDate : Date :=
  {| toLocaleTimeString := "3:07:15 PM";
     toLocaleDateString := "Monday, November 2, 2026" |}.

End LocalEngine.

(* ================================================================== *)
(** * JSON values and exceptions *)
(* ================================================================== *)

Module JSON.

Import JSNumber.

#[local] Set Warnings "-register-all".

(** What [JSON.parse] produces. A JavaScript expression that may also be
    [undefined] has type [option value]. *)
Inductive value : Type :=
| Null
| Bool (b : bool)
| Num (x : Number)
| Str (s : string)
| Arr (items : list value)
| Obj (fields : list (string * value)).

(** The property [k] of a parsed object; of two bindings of one key the
    later one is kept by [JSON.parse]. *)
Fixpoint field (k : string) (fields : list (string * value)) : option value :=
  match fields with
  | [] => None
  | (k', v) :: rest =>
      match field k rest with
      | Some w => Some w
      | None => if String.eqb k k' then Some v else None
      end
  end.

(** An object literal once serialized: [JSON.stringify] drops a property
    whose value is [undefined]. *)
Fixpoint object (props : list (string * option value)) : list (string * value) :=
  match props with
  | [] => []
  | (k, Some v) :: rest => (k, v) :: object rest
  | (_, None) :: rest => object rest
  end.

(** [!v] is false. *)
Definition truthy (v : option value) : bool :=
  match v with
  | None | Some Null => false
  | Some (Bool b) => b
  | Some (Num (S754_zero _)) | Some (Num S754_nan) => false
  | Some (Num _) => true
  | Some (Str s) => negb (String.eqb s "")
  | Some (Arr _) | Some (Obj _) => true
  end.

End JSON.

Module Exn.

(** A thrown [Error] object; only its [message] is ever read. *)
Inductive Thrown : Type := Error (message : string).

Definition message (e : Thrown) : string := let 'Error m := e in m.

(** A computation that returns or throws. *)
Definition M (A : Type) : Type := (Thrown + A)%type.

Definition ret {A} (a : A) : M A := inr a.
Definition throw {A} (e : Thrown) : M A := inl e.

Definition bind {A B} (m : M A) (f : A -> M B) : M B :=
  match m with
  | inl e => inl e
  | inr a => f a
  end.

(** [try { body } catch (error) { handler }] *)
Definition tryCatch {A} (body : M A) (handler : Thrown -> A) : A :=
  match body with
  | inl e => handler e
  | inr a => a
  end.

End Exn.

Declare Scope exn_scope.
Delimit Scope exn_scope with exn.
Notation "x <- m ;; k" := (Exn.bind m (fun x => k))
  (at level 61, m at next level, right associativity) : exn_scope.
Notation "' p <- m ;; k" := (Exn.bind m (fun p => k))
  (at level 61, p pattern, m at next level, right associativity) : exn_scope.
Notation "m ;;; k" := (Exn.bind m (fun _ => k))
  (at level 61, right associativity) : exn_scope.

(* ================================================================== *)
(** * The chat proxy (supabase/functions/chat/index.ts) *)
(* ================================================================== *)

Module ChatFunction.

Import JSString JSON Exn.

(** Array.prototype.slice(start), also for a negative [start]. *)
Definition slice {A} (start : Z) (l : list A) : list A :=
  let len := Z.of_nat (List.length l) in
  let k := if (start <? 0)%Z then Z.max (len + start) 0 else Z.min start len in
  skipn (Z.to_nat k) l.

(** The characters of a string, each as a string of length one. *)
Fixpoint chars (s : string) : list value :=
  match s with
  | EmptyString => []
  | String c s' => Str (String c EmptyString) :: chars s'
  end.

Definition corsHeaders : list (string * string) :=
  [("Access-Control-Allow-Origin", "*");
   ("Access-Control-Allow-Headers",
    "authorization, x-client-info, apikey, content-type")].

Definition jsonHeaders : list (string * string) :=
  corsHeaders ++ [("Content-Type", "application/json")].

Definition systemPrompt : string :=
"You are Nova, an advanced AI voice assistant. You are helpful, knowledgeable, and conversational. 

Key characteristics:
- Respond naturally and conversationally like a human assistant
- Keep responses concise but informative (ideal for voice)
- Be friendly and engaging
- Help with a wide range of tasks: questions, calculations, explanations, advice, creative tasks
- When asked about time/date, remind users you don't have real-time access
- For weather, web searches, or real-time data, explain you'd need internet access
- Be encouraging and positive
- Adapt your tone to match the user's energy

Remember: Your responses will be spoken aloud, so write for speech, not text.".

Definition systemMessage : value :=
  Obj [("role", Str "system"); ("content", Str systemPrompt)].

(** [{ role: 'user', content: message }] *)
Definition userMessage (message : option value) : value :=
  Obj (object [("role", Some (Str "user")); ("content", message)]).

(** The headers and the body of the upstream request. *)
Definition upstreamHeaders (openaiApiKey : string) : list (string * string) :=
  [("Authorization", "Bearer " ++ openaiApiKey);
   ("Content-Type", "application/json")].

Definition completionRequest (messages : list value) : value :=
  Obj [("model", Str "gpt-4o");
       ("messages", Arr messages);
       ("max_tokens", Num (JSNumber.ofZ 300));
       ("temperature", Num (JSNumber.div (JSNumber.ofZ 7) (JSNumber.ofZ 10)));
       ("presence_penalty", Num (JSNumber.div (JSNumber.ofZ 6) (JSNumber.ofZ 10)));
       ("frequency_penalty", Num (JSNumber.div (JSNumber.ofZ 3) (JSNumber.ofZ 10)))].

Definition apology : string :=
  "I'm sorry, I'm having trouble processing your request right now. Please try again.".

(** The request as the handler sees it: its method and what [req.json()]
    settles to (a rejection when the body is not JSON text). *)
Record Request : Type := {
  method : string;
  json : M value
}.

Inductive Body : Type :=
| Text (s : string)
| Json (v : value)     (* the text [JSON.stringify(v)] *).

Record Response : Type := {
  status : Z;
  headers : list (string * string);
  body : Body
}.

(** What [fetch] and then [response.json()] settle to. *)
Inductive Fetched : Type :=
| Rejected (e : Thrown)
| Responded (status : Z) (json : M value).

(** The places where the runtime itself throws a [TypeError]. *)
Inductive Fault : Type :=
| DestructureNull            (* const { ... } = null *)
| SliceOf (v : value)        (* v.slice(-10), v without such a method *)
| ReadOfNullish (prop : string) (* x[prop], x null or undefined *).

Section Handler.

(** The message the runtime gives each of its own errors. *)
Variable faultMessage : Fault -> string.

(** [Deno.env.get('OPENAI_API_KEY')] *)
Variable OPENAI_API_KEY : option string.

(** [fetch('https://api.openai.com/v1/chat/completions', { method:
    'POST', headers, body })]: the completion service, from the headers
    and the body of the request to the outcome. *)
Variable fetch : list (string * string) -> value -> Fetched.

Definition typeError {A} (f : Fault) : M A := throw (Error (faultMessage f)).

(** [v[k]] for a value that came out of [JSON.parse] and one of the keys
    the handler reads (["choices"], ["0"], ["message"], ["content"],
    ["conversationHistory"]): own properties only, since no prototype
    has any of them. *)
Definition prop (v : value) (k : string) : option value :=
  match v with
  | Obj fields => field k fields
  | Arr items => if String.eqb k "0" then nth_error items 0 else None
  | Str (String c _) => if String.eqb k "0" then Some (Str (String c "")) else None
  | _ => None
  end.

(** [x[k]]: throws on [null] and [undefined]. *)
Definition get (x : option value) (k : string) : M (option value) :=
  match x with
  | None | Some Null => typeError (ReadOfNullish k)
  | Some v => ret (prop v k)
  end.

(** [x?.[k]] *)
Definition getOpt (x : option value) (k : string) : option value :=
  match x with
  | None | Some Null => None
  | Some v => prop v k
  end.

(** [const { message, conversationHistory = [] } = await req.json()] *)
Definition destructure (req : Request) : M (option value * value) :=
  (parsed <- json req ;;
   match parsed with
   | Null => typeError DestructureNull
   | v =>
       ret (prop v "message",
            match prop v "conversationHistory" with
            | Some h => h
            | None => Arr []
            end)
   end)%exn.

(** [...conversationHistory.slice(-10)] *)
Definition lastTen (conversationHistory : value) : M (list value) :=
  match conversationHistory with
  | Arr items => ret (slice (-10) items)
  | Str s => ret (slice (-10) (chars s))
  | v => typeError (SliceOf v)
  end.

(** The [messages] array of the upstream request. *)
Definition buildMessages (message : option value) (conversationHistory : value)
  : M (list value) :=
  (recent <- lastTen conversationHistory ;;
   ret (systemMessage :: recent ++ [userMessage message]))%exn.

Definition ok (status : Z) : bool := (200 <=? status)%Z && (status <=? 299)%Z.

(** [if (!openaiApiKey) throw ...]: an absent and an empty key alike. *)
Definition requireKey : M string :=
  match OPENAI_API_KEY with
  | Some key =>
      if String.eqb key "" then throw (Error "OpenAI API key not configured")
      else ret key
  | None => throw (Error "OpenAI API key not configured")
  end.

(** The [try] block up to the upstream call: the key and the [messages]
    it is made with. *)
Definition upstreamRequest (req : Request) : M (string * list value) :=
  ('(message, conversationHistory) <- destructure req ;;
   openaiApiKey <- requireKey ;;
   messages <- buildMessages message conversationHistory ;;
   ret (openaiApiKey, messages))%exn.

(** The [try] block up to its [return]: [aiResponse]. *)
Definition complete (req : Request) : M (option value) :=
  ('(openaiApiKey, messages) <- upstreamRequest req ;;
   match fetch (upstreamHeaders openaiApiKey) (completionRequest messages) with
   | Rejected e => throw e
   | Responded status json =>
       (if ok status then ret tt
        else throw (Error ("OpenAI API error: "
                           ++ JSNumber.toString (JSNumber.ofZ status)))) ;;;
       data <- json ;;
       choices <- get (Some data) "choices" ;;
       first <- get choices "0" ;;
       let aiResponse := getOpt (getOpt first "message") "content" in
       if truthy aiResponse then ret aiResponse
       else throw (Error "No response from AI")
   end)%exn.

(** The response of the [try] block, and that of the [catch] block. *)
Definition succeeded (aiResponse : option value) : Response :=
  {| status := 200; headers := jsonHeaders;
     body := Json (Obj (object [("response", aiResponse);
                                ("success", Some (Bool true))])) |}.

Definition failed (error : Thrown) : Response :=
  {| status := 200; headers := jsonHeaders;
     body := Json (Obj (object [("error", Some (Str (message error)));
                                ("response", Some (Str apology));
                                ("success", Some (Bool false))])) |}.

(** The headers of [new Response('ok', { headers: corsHeaders })]: the
    body is a string and [corsHeaders] names no content type, so the
    constructor adds that of text. The name is as the response reports it;
    the other names are as the source writes them. *)
Definition preflightHeaders : list (string * string) :=
  corsHeaders ++ [("content-type", "text/plain;charset=UTF-8")].

Definition handler (req : Request) : Response :=
  if String.eqb (method req) "OPTIONS" then
    {| status := 200; headers := preflightHeaders; body := Text "ok" |}
  else
    tryCatch (aiResponse <- complete req ;; ret (succeeded aiResponse))%exn
             failed.

End Handler.

(** Requests and collaborators for examples: a runtime whose errors all
    read "TypeError", a completion service that cannot be reached, a CORS
    preflight, and a POST whose body parses to [v]. *)
Definition sampleFaults (f : Fault) : string := "TypeError".

Definition offline (headers : list (string * string)) (body : value) : Fetched :=
  Rejected (Error "error sending request").

(** A completion service that answers 429, and one that answers 200
    with an empty completion. *)
Definition tooManyRequests (headers : list (string * string)) (body : value)
  : Fetched :=
  Responded 429 (ret (Obj [])).

Definition emptyCompletion (headers : list (string * string)) (body : value)
  : Fetched :=
  Responded 200
    (ret (Obj [("choices",
                Arr [Obj [("message", Obj [("role", Str "assistant");
                                           ("content", Str "")])]])])).

Definition preflight : Request :=
  {| method := "OPTIONS"; json := throw (Error "Unexpected end of JSON input") |}.

Definition post (v : value) : Request := {| method := "POST"; json := ret v |}.

(** The property [k] of a response whose body is a JSON object. *)
Definition bodyField (r : Response) (k : string) : option value :=
  match body r with
  | Json (Obj fields) => field k fields
  | _ => None
  end.

End ChatFunction.

(* ================================================================== *)
(** * The conversation controller (VoiceAssistant.tsx, remote variant) *)
(* ================================================================== *)

Module Controller.

Import JSString Exn.

(** An entry of the conversation history. *)
Record Message : Type := { role : string; content : string }.

(** The body the chat function answers with: [{ response, success, error? }]. *)
Record ChatData : Type := {
  data_response : string;
  data_success : bool;
  data_error : option string
}.

(** What [await supabase.functions.invoke('chat', ...)] yields: an
    [error] (returned or thrown), or the [data] of the reply. *)
Inductive Invoked : Type :=
| InvokeError (error : Thrown)
| InvokeData (data : ChatData).

(** The state hooks and refs of the component, the [conversationHistory]
    binding the handlers installed by the mount effect closed over, and
    the commands whose [invoke] has not settled yet. *)
Record State : Type := {
  isListening : bool;
  isProcessing : bool;
  transcript : string;
  response : string;
  isSupported : bool;
  conversationHistory : list Message;
  needsApiKey : bool;
  recognitionRef : bool;        (* recognitionRef.current is not null *)
  synthRef : bool;              (* synthRef.current is not null *)
  closedOverHistory : list Message;
  pending : list string
}.

(** What a handler does to the platform. *)
Inductive Effect : Type :=
| RecognitionStart
| RecognitionStop
| Speak (text : string) (tuned : bool) (* rate 0.9, pitch 1, volume 0.8 if tuned *)
| Toast (title : string)
| Invoke (message : string) (history : list Message)
| ConsoleError.

Definition initial : State :=
  {| isListening := false; isProcessing := false; transcript := "";
     response := ""; isSupported := false; conversationHistory := [];
     needsApiKey := false; recognitionRef := false; synthRef := false;
     closedOverHistory := []; pending := [] |}.

Definition setIsListening (b : bool) (st : State) : State :=
  {| isListening := b; isProcessing := isProcessing st;
     transcript := transcript st; response := response st;
     isSupported := isSupported st;
     conversationHistory := conversationHistory st;
     needsApiKey := needsApiKey st; recognitionRef := recognitionRef st;
     synthRef := synthRef st; closedOverHistory := closedOverHistory st;
     pending := pending st |}.

Definition setIsProcessing (b : bool) (st : State) : State :=
  {| isListening := isListening st; isProcessing := b;
     transcript := transcript st; response := response st;
     isSupported := isSupported st;
     conversationHistory := conversationHistory st;
     needsApiKey := needsApiKey st; recognitionRef := recognitionRef st;
     synthRef := synthRef st; closedOverHistory := closedOverHistory st;
     pending := pending st |}.

Definition setTranscript (t : string) (st : State) : State :=
  {| isListening := isListening st; isProcessing := isProcessing st;
     transcript := t; response := response st;
     isSupported := isSupported st;
     conversationHistory := conversationHistory st;
     needsApiKey := needsApiKey st; recognitionRef := recognitionRef st;
     synthRef := synthRef st; closedOverHistory := closedOverHistory st;
     pending := pending st |}.

Definition setResponse (r : string) (st : State) : State :=
  {| isListening := isListening st; isProcessing := isProcessing st;
     transcript := transcript st; response := r;
     isSupported := isSupported st;
     conversationHistory := conversationHistory st;
     needsApiKey := needsApiKey st; recognitionRef := recognitionRef st;
     synthRef := synthRef st; closedOverHistory := closedOverHistory st;
     pending := pending st |}.

Definition setIsSupported (b : bool) (st : State) : State :=
  {| isListening := isListening st; isProcessing := isProcessing st;
     transcript := transcript st; response := response st;
     isSupported := b;
     conversationHistory := conversationHistory st;
     needsApiKey := needsApiKey st; recognitionRef := recognitionRef st;
     synthRef := synthRef st; closedOverHistory := closedOverHistory st;
     pending := pending st |}.

(** [setConversationHistory(prev => f(prev))] *)
Definition setConversationHistory (f : list Message -> list Message)
  (st : State) : State :=
  {| isListening := isListening st; isProcessing := isProcessing st;
     transcript := transcript st; response := response st;
     isSupported := isSupported st;
     conversationHistory := f (conversationHistory st);
     needsApiKey := needsApiKey st; recognitionRef := recognitionRef st;
     synthRef := synthRef st; closedOverHistory := closedOverHistory st;
     pending := pending st |}.

Definition setNeedsApiKey (b : bool) (st : State) : State :=
  {| isListening := isListening st; isProcessing := isProcessing st;
     transcript := transcript st; response := response st;
     isSupported := isSupported st;
     conversationHistory := conversationHistory st;
     needsApiKey := b; recognitionRef := recognitionRef st;
     synthRef := synthRef st; closedOverHistory := closedOverHistory st;
     pending := pending st |}.

(** The mount effect found both browser interfaces: the refs are filled
    and the recognizer callbacks close over this render. *)
Definition installRecognition (st : State) : State :=
  {| isListening := isListening st; isProcessing := isProcessing st;
     transcript := transcript st; response := response st;
     isSupported := isSupported st;
     conversationHistory := conversationHistory st;
     needsApiKey := needsApiKey st; recognitionRef := true;
     synthRef := true; closedOverHistory := conversationHistory st;
     pending := pending st |}.

Definition setPending (p : list string) (st : State) : State :=
  {| isListening := isListening st; isProcessing := isProcessing st;
     transcript := transcript st; response := response st;
     isSupported := isSupported st;
     conversationHistory := conversationHistory st;
     needsApiKey := needsApiKey st; recognitionRef := recognitionRef st;
     synthRef := synthRef st; closedOverHistory := closedOverHistory st;
     pending := p |}.

(** A handler: the state it leaves and what it did to the platform. *)
Definition Handler : Type := State -> State * list Effect.

(** [if (synthRef.current) { ... synthRef.current.speak(utterance) }] *)
Definition speak (text : string) (tuned : bool) (st : State) : list Effect :=
  if synthRef st then [Speak text tuned] else [].

(** The body of the mount effect. *)
Definition mountEffect (hasRecognition hasSynthesis : bool) : Handler :=
  fun st =>
    if hasRecognition && hasSynthesis
    then (installRecognition (setIsSupported true st), [])
    else (st, [Toast "Browser Not Supported"]).

(** [processCommand] up to its [await]. *)
Definition processCommand (command : string) : Handler :=
  fun st =>
    (setPending (command :: pending st) (setIsProcessing true st),
     [Invoke command (closedOverHistory st)]).

Definition genericError : string :=
  "I'm sorry, I encountered an error processing your request.".

Definition apiKeyError : string :=
  "I need an OpenAI API key to provide intelligent responses. Please configure your API key to continue.".

(** The [catch (error)] block of [processCommand]. *)
Definition catchBlock (error : Thrown) : Handler :=
  fun st =>
    if includes (message error) "API key"
    then (setResponse apiKeyError (setNeedsApiKey true st),
          ConsoleError :: speak apiKeyError false st)
    else (setResponse genericError st,
          ConsoleError :: speak genericError false st).

(** [!data.success && data.error?.includes('API key')] *)
Definition reportsMissingKey (data : ChatData) : bool :=
  negb (data_success data) &&
  match data_error data with
  | Some e => includes e "API key"
  | None => false
  end.

(** The [try] block of [processCommand] after the [await], with its
    [catch]. *)
Definition tryBlock (command : string) (outcome : Invoked) : Handler :=
  fun st =>
    match outcome with
    | InvokeError error => catchBlock error st
    | InvokeData data =>
        if reportsMissingKey data
        then catchBlock (Error "OpenAI API key not configured")
                        (setNeedsApiKey true st)
        else
          let responseText := data_response data in
          (setConversationHistory
             (fun prev =>
                (prev ++ [ {| role := "user"; content := command |};
                           {| role := "assistant"; content := responseText |} ])%list)
             (setResponse responseText st),
           speak responseText true st)
    end.

(** [processCommand] from its [await] on; [finally] ends it. *)
Definition processCommandSettled (command : string) (outcome : Invoked)
  : Handler :=
  fun st =>
    let '(st', effects) := tryBlock command outcome st in
    (setIsProcessing false st', effects).

(** [recognitionRef.current.onresult] *)
Definition onresult (text : string) (isFinal : bool) : Handler :=
  fun st =>
    let st1 := setTranscript text st in
    if isFinal then processCommand text (setIsListening false st1)
    else (st1, []).

(** [recognitionRef.current.onerror] *)
Definition onerror : Handler :=
  fun st => (setIsListening false st, [ConsoleError; Toast "Voice Error"]).

(** [recognitionRef.current.onend] *)
Definition onend : Handler :=
  fun st => (setIsListening false st, []).

(** [recognition.start()] and [recognition.stop()] are taken to return
    normally. *)
Definition toggleListening : Handler :=
  fun st =>
    if negb (isSupported st) || negb (recognitionRef st)
    then (st, [Toast "Not Supported"])
    else if isListening st
    then (setIsListening false st, [RecognitionStop])
    else (setIsListening true (setResponse "" (setTranscript "" st)),
          [RecognitionStart]).

(** Modelled from the spec: the [Button] component (components/ui/button)
    is not among the sources, only its use
    [<Button onClick={toggleListening} disabled={isProcessing}>]. The spec:
    while the engine call is outstanding, "[isProcessing] is true and the
    toggle control is disabled to prevent overlapping sessions"; a disabled
    control does not run its [onClick]. *)
Definition Button (onClick : Handler) (disabled : bool) : Handler :=
  fun st => if disabled then (st, []) else onClick st.

(** A click on the voice button. The component returns the
    "Browser Not Supported" card, without the button, unless
    [isSupported]. *)
Definition clickVoiceButton : Handler :=
  fun st =>
    if isSupported st then Button toggleListening (isProcessing st) st
    else (st, []).

(** Remove the first occurrence of [command]. *)
Fixpoint settle (command : string) (p : list string) : option (list string) :=
  match p with
  | [] => None
  | c :: p' =>
      if String.eqb command c then Some p'
      else option_map (cons c) (settle command p')
  end.

(** What happens to the mounted component. *)
Inductive Event : Type :=
| Mount (hasRecognition hasSynthesis : bool)
| Click
| Result (text : string) (isFinal : bool)
| RecognitionError
| RecognitionEnd
| Settled (command : string) (outcome : Invoked).

(** The recognizer callbacks exist once the mount effect installed them;
    an [invoke] settles only if it was made. *)
Definition step (e : Event) : Handler :=
  fun st =>
    match e with
    | Mount r s => mountEffect r s st
    | Click => clickVoiceButton st
    | Result text isFinal =>
        if recognitionRef st then onresult text isFinal st else (st, [])
    | RecognitionError => if recognitionRef st then onerror st else (st, [])
    | RecognitionEnd => if recognitionRef st then onend st else (st, [])
    | Settled command outcome =>
        match settle command (pending st) with
        | Some p => processCommandSettled command outcome (setPending p st)
        | None => (st, [])
        end
    end.

(** The state after a sequence of events, and all the effects so far. *)
Fixpoint run (events : list Event) (st : State) : State * list Effect :=
  match events with
  | [] => (st, [])
  | e :: rest =>
      let '(st1, effects1) := step e st in
      let '(st2, effects2) := run rest st1 in
      (st2, (effects1 ++ effects2)%list)
  end.

Definition stateAfter (events : list Event) : State :=
  fst (run events initial).

(** A transition starts or stops a capture session. *)
Definition touchesCapture (effects : list Effect) : bool :=
  existsb (fun e => match e with
                    | RecognitionStart | RecognitionStop => true
                    | _ => false
                    end) effects.

(** The outcome of an engine call reports a missing credential: the
    error that reaches the [catch] block has "API key" in its message. *)
Definition reportsMissingCredential (outcome : Invoked) : bool :=
  match outcome with
  | InvokeError error => includes (message error) "API key"
  | InvokeData data => reportsMissingKey data
  end.

(** The two flags are not both set. *)
Definition exclusive (st : State) : bool :=
  negb (isListening st && isProcessing st).

(** States and a reply for examples: the component while the recognizer
    runs, the component while an engine call is outstanding, and the
    answer of the chat function when it has no key. *)
Definition listeningState : State :=
  {| isListening := true; isProcessing := false;
     transcript := "what is"; response := "";
     isSupported := true; conversationHistory := [];
     needsApiKey := false; recognitionRef := true; synthRef := true;
     closedOverHistory := []; pending := [] |}.

Definition awaitingReply : State :=
  {| isListening := false; isProcessing := true;
     transcript := "what is the time"; response := "";
     isSupported := true; conversationHistory := [];
     needsApiKey := false; recognitionRef := true; synthRef := true;
     closedOverHistory := []; pending := ["what is the time"] |}.

Definition noKeyReply : ChatData :=
  {| data_response := "I'm sorry, I'm having trouble processing your request right now. Please try again.";
     data_success := false;
     data_error := Some "OpenAI API key not configured" |}.

End Controller.

(* ================================================================== *)
(** * Views on the controller: what its history and effects contain *)
(* ================================================================== *)

Module ControllerViews.

Import Controller.

(** The history is a sequence of exchanges: a user entry, then the
    assistant's entry. *)
Fixpoint exchanges (history : list Message) : bool :=
  match history with
  | [] => true
  | u :: a :: rest =>
      String.eqb (role u) "user" && String.eqb (role a) "assistant"
      && exchanges rest
  | [_] => false
  end.

(** The histories sent to the chat function, in order. *)
Fixpoint invokedHistories (effects : list Effect) : list (list Message) :=
  match effects with
  | [] => []
  | Invoke _ history :: rest => history :: invokedHistories rest
  | _ :: rest => invokedHistories rest
  end.


(** The mount effect runs. *)
Definition isMount (e : Event) : bool :=
  match e with
  | Mount _ _ => true
  | _ => false
  end.

(** The mount effect runs and finds both browser interfaces. *)
Definition isSupportedMount (e : Event) : bool :=
  match e with
  | Mount hasRecognition hasSynthesis => hasRecognition && hasSynthesis
  | _ => false
  end.

(** What a handler did is a notice to the user and nothing else. *)
Definition isToast (e : Effect) : bool :=
  match e with
  | Toast _ => true
  | _ => false
  end.

(** What one step appends to the history. *)
Definition appended (e : Event) (st : State) : list Message :=
  match e with
  | Settled command (InvokeData data) =>
      match settle command (pending st) with
      | Some _ =>
          if reportsMissingKey data then []
          else [ {| role := "user"; content := command |};
                 {| role := "assistant"; content := data_response data |} ]
      | None => []
      end
  | _ => []
  end.

(** The status texts the component renders. [if (!isSupported) return
    <Card>Browser Not Supported</Card>] comes first: that card has no
    status text. Otherwise
    [{isListening && ...} {isProcessing && ...}
     {!isListening && !isProcessing && ...}]. *)
Definition statusLines (st : State) : list string :=
  if negb (isSupported st) then []
  else
    ((if isListening st then ["Listening... Speak now"] else [])
     ++ (if isProcessing st then ["Processing your request..."] else [])
     ++ (if negb (isListening st) && negb (isProcessing st)
         then ["Click the microphone to start"] else []))%list.

(** The icon inside the voice button, if the button is rendered: none on
    the "Browser Not Supported" card, otherwise
    [isProcessing ? <Loader2/> : isListening ? <MicOff/> : <Mic/>]. *)
Inductive Icon : Type := Loader2 | MicOff | Mic.

Definition buttonIcon (st : State) : option Icon :=
  if negb (isSupported st) then None
  else Some (if isProcessing st then Loader2
             else if isListening st then MicOff
             else Mic).

(** A reply of the chat function, for examples. *)
Definition timeReply : ChatData :=
  {| data_response := "I can't see a clock, but I am happy to help otherwise.";
     data_success := true;
     data_error := None |}.

End ControllerViews.

(* ================================================================== *)
(** * Completion services and a request, for examples *)
(* ================================================================== *)

Module ChatFunctionSamples.

Import JSON Exn ChatFunction.

(** A service that answers with one choice whose content is [text]. *)
Definition answering (text : string)
  (headers : list (string * string)) (body : value) : Fetched :=
  Responded 200
    (ret (Obj [("object", Str "chat.completion");
               ("choices",
                Arr [Obj [("index", Num (JSNumber.ofZ 0));
                          ("message", Obj [("role", Str "assistant");
                                           ("content", Str text)])]])])).



Definition hello : Request := post (Obj [("message", Str "hello")]).

End ChatFunctionSamples.

(* ================================================================== *)
(** * The conversation controller (VoiceAssistant.tsx, local variant) *)
(* ================================================================== *)

Module LocalController.

Import JSString LocalEngine.

(** The state hooks and refs of the component. *)
Record State : Type := {
  isListening : bool;
  isProcessing : bool;
  transcript : string;
  response : string;
  isSupported : bool;
  recognitionRef : bool;        (* recognitionRef.current is not null *)
  synthRef : bool               (* synthRef.current is not null *)
}.

Inductive Effect : Type :=
| RecognitionStart
| RecognitionStop
| Speak (text : string) (tuned : bool) (* rate 0.9, pitch 1, volume 0.8 if tuned *)
| Toast (title : string)
| ConsoleError.

Definition initial : State :=
  {| isListening := false; isProcessing := false; transcript := "";
     response := ""; isSupported := false;
     recognitionRef := false; synthRef := false |}.

Definition setIsListening (b : bool) (st : State) : State :=
  {| isListening := b; isProcessing := isProcessing st;
     transcript := transcript st; response := response st;
     isSupported := isSupported st;
     recognitionRef := recognitionRef st; synthRef := synthRef st |}.

Definition setIsProcessing (b : bool) (st : State) : State :=
  {| isListening := isListening st; isProcessing := b;
     transcript := transcript st; response := response st;
     isSupported := isSupported st;
     recognitionRef := recognitionRef st; synthRef := synthRef st |}.

Definition setTranscript (t : string) (st : State) : State :=
  {| isListening := isListening st; isProcessing := isProcessing st;
     transcript := t; response := response st;
     isSupported := isSupported st;
     recognitionRef := recognitionRef st; synthRef := synthRef st |}.

Definition setResponse (r : string) (st : State) : State :=
  {| isListening := isListening st; isProcessing := isProcessing st;
     transcript := transcript st; response := r;
     isSupported := isSupported st;
     recognitionRef := recognitionRef st; synthRef := synthRef st |}.

Definition setIsSupported (b : bool) (st : State) : State :=
  {| isListening := isListening st; isProcessing := isProcessing st;
     transcript := transcript st; response := response st;
     isSupported := b;
     recognitionRef := recognitionRef st; synthRef := synthRef st |}.

(** The mount effect found both browser interfaces and filled the refs. *)
Definition installRecognition (st : State) : State :=
  {| isListening := isListening st; isProcessing := isProcessing st;
     transcript := transcript st; response := response st;
     isSupported := isSupported st;
     recognitionRef := true; synthRef := true |}.

Definition Handler : Type := State -> State * list Effect.

(** [if (synthRef.current) { ... synthRef.current.speak(utterance) }] *)
Definition speak (text : string) (tuned : bool) (st : State) : list Effect :=
  if synthRef st then [Speak text tuned] else [].

(** The body of the mount effect. *)
Definition mountEffect (hasRecognition hasSynthesis : bool) : Handler :=
  fun st =>
    if hasRecognition && hasSynthesis
    then (installRecognition (setIsSupported true st), [])
    else (st, [Toast "Browser Not Supported"]).

(** [processCommand]: it has no [await], so it runs to its [finally]
    within the callback that calls it. [now] is what [new Date()] gives
    during the call. [generateResponse] and the speech calls are taken to
    return normally, so that the [catch] block is not entered. *)
Definition processCommand (now : Date) (command : string) : Handler :=
  fun st =>
    let responseText := generateResponse now (toLowerCase command) in
    (setIsProcessing false (setResponse responseText (setIsProcessing true st)),
     speak responseText true st).

(** [recognitionRef.current.onresult] *)
Definition onresult (now : Date) (text : string) (isFinal : bool) : Handler :=
  fun st =>
    let st1 := setTranscript text st in
    if isFinal then processCommand now text (setIsListening false st1)
    else (st1, []).

(** [recognitionRef.current.onerror] *)
Definition onerror : Handler :=
  fun st => (setIsListening false st, [ConsoleError; Toast "Voice Error"]).

(** [recognitionRef.current.onend] *)
Definition onend : Handler :=
  fun st => (setIsListening false st, []).

(** [recognition.start()] and [recognition.stop()] are taken to return
    normally. *)
Definition toggleListening : Handler :=
  fun st =>
    if negb (isSupported st) || negb (recognitionRef st)
    then (st, [Toast "Not Supported"])
    else if isListening st
    then (setIsListening false st, [RecognitionStop])
    else (setIsListening true (setResponse "" (setTranscript "" st)),
          [RecognitionStart]).

(** Modelled from the spec: the [Button] component (components/ui/button)
    is not among the sources, only its use
    [<Button onClick={toggleListening} disabled={isProcessing}>]. The spec:
    "the toggle control is disabled" while [isProcessing] is true; a
    disabled control does not run its [onClick]. *)
Definition Button (onClick : Handler) (disabled : bool) : Handler :=
  fun st => if disabled then (st, []) else onClick st.

(** A click on the voice button, which is rendered only if [isSupported]. *)
Definition clickVoiceButton : Handler :=
  fun st =>
    if isSupported st then Button toggleListening (isProcessing st) st
    else (st, []).

(** What happens to the mounted component; a recognition result comes
    with the clock reading of its moment. *)
Inductive Event : Type :=
| Mount (hasRecognition hasSynthesis : bool)
| Click
| Result (now : Date) (text : string) (isFinal : bool)
| RecognitionError
| RecognitionEnd.

Definition step (e : Event) : Handler :=
  fun st =>
    match e with
    | Mount r s => mountEffect r s st
    | Click => clickVoiceButton st
    | Result now text isFinal =>
        if recognitionRef st then onresult now text isFinal st else (st, [])
    | RecognitionError => if recognitionRef st then onerror st else (st, [])
    | RecognitionEnd => if recognitionRef st then onend st else (st, [])
    end.

Fixpoint run (events : list Event) (st : State) : State * list Effect :=
  match events with
  | [] => (st, [])
  | e :: rest =>
      let '(st1, effects1) := step e st in
      let '(st2, effects2) := run rest st1 in
      (st2, (effects1 ++ effects2)%list)
  end.

Definition stateAfter (events : list Event) : State :=
  fst (run events initial).

(** The component once its mount effect has found both interfaces, for
    examples. *)
Definition mounted : State := fst (mountEffect true true initial).

End LocalController.

(* ================================================================== *)
(** * The waveform bars (WaveformVisualizer.tsx) *)
(* ================================================================== *)

Module Waveform.

Import JSNumber.

(** The [bars] state hook, and whether the interval set by the effect
    is running. *)
Record State : Type := {
  bars : list Number;
  interval : bool
}.

Definition initial : State := {| bars := []; interval := false |}.

(** [isActive ? Math.random() * 100 + 20 : 20] *)
Definition barHeight (isActive : bool) (random : Number) : Number :=
  if isActive then add (mul random (ofZ 100)) (ofZ 20) else ofZ 20.

(** [Array.from({ length: 12 }, () => ...)]: twelve calls, the i-th one
    drawing [random i]. *)
Definition generateBars (isActive : bool) (random : nat -> Number)
  : list Number :=
  map (fun i => barHeight isActive (random i)) (seq 0 12).

(** [Array(12).fill(20)] *)
Definition flatBars : list Number := repeat (ofZ 20) 12.

(** The effect runs (at mount and when [isActive] changes), or the
    interval fires with what [Math.random] will return. *)
Inductive Event : Type :=
| Effect (isActive : bool)
| Tick (random : nat -> Number).

(** Before the effect runs again the cleanup of its last run clears the
    interval. An interval exists only for an effect run with [isActive]
    true, and its [generateBars] closed over that value. *)
Definition step (e : Event) (st : State) : State :=
  match e with
  | Effect isActive =>
      if isActive then {| bars := bars st; interval := true |}
      else {| bars := flatBars; interval := false |}
  | Tick random =>
      if interval st then {| bars := generateBars true random; interval := true |}
      else st
  end.

Definition run (events : list Event) (st : State) : State :=
  fold_left (fun st e => step e st) events st.

(** A sequence of draws, for examples. *)
Definition halves (i : nat) : Number := div (ofZ 1) (ofZ 2).

End Waveform.

(* ================================================================== *)
(** * JavaScript numbers: the printer on known values *)
(* ================================================================== *)

Module JSNumberFacts.

Import JSNumber.

Example one_third : toString (div (ofZ 1) (ofZ 3)) = "0.3333333333333333".
Proof. vm_compute. reflexivity. Qed.

Example tenth_plus_fifth :
  toString (add (div (ofZ 1) (ofZ 10)) (div (ofZ 2) (ofZ 10)))
  = "0.30000000000000004".
Proof. vm_compute. reflexivity. Qed.

Example exponent_form :
  toString (mul (ofZ 100000000000) (ofZ 10000000000)) = "1e+21" /\
  toString (div (ofZ 1) (ofZ 10000000)) = "1e-7".
Proof. split; vm_compute; reflexivity. Qed.

Example beyond_safe_integers :
  toString (parseInt "9007199254740993") = "9007199254740992" /\
  toString (parseInt "123456789012345678901") = "123456789012345680000".
Proof. split; vm_compute; reflexivity. Qed.

Example zero_by_zero : toString (div (parseInt "0") (parseInt "0")) = "NaN".
Proof. reflexivity. Qed.

Example negative_difference : toString (sub (parseInt "12") (parseInt "30")) = "-18".
Proof. vm_compute. reflexivity. Qed.

End JSNumberFacts.

(* ================================================================== *)
(** * The local response engine: facts *)
(* ================================================================== *)

Module LocalEngineFacts.

Import JSString JSNumber RegExp LocalEngine.

Section StringFacts.

Lemma stripPrefix_append (p t : string) : stripPrefix p (p ++ t) = Some t.
Proof.
  induction p as [|c p IH]; simpl; [reflexivity|].
  now rewrite Ascii.eqb_refl.
Qed.

Lemma digit_not_space (c : ascii) : isDigit c = true -> Ascii.eqb " " c = false.
Proof.
  intros H. destruct (Ascii.eqb_spec " " c) as [<-|]; [discriminate H | reflexivity].
Qed.


(** A run of digits in front of [t] is swallowed whole. *)
Lemma dropDigits_digits (x t : string) :
  all isDigit x = true -> dropDigits (x ++ t) = dropDigits t.
Proof.
  induction x as [|c x IH]; simpl; [reflexivity|].
  intros H. apply andb_true_iff in H as [Hc Hx]. now rewrite Hc, IH.
Qed.

Lemma digitPrefix_digits (x t : string) :
  all isDigit x = true -> digitPrefix (x ++ t) = x ++ digitPrefix t.
Proof.
  induction x as [|c x IH]; simpl; [reflexivity|].
  intros H. apply andb_true_iff in H as [Hc Hx]. now rewrite Hc, IH.
Qed.




End StringFacts.

Section MatcherFacts.

Context {R : Type}.

(** The longest run of digits is tried first. *)
Lemma many_first (s : string) (k : string -> option R) (r : R) :
  k (dropDigits s) = Some r -> many s k = Some r.
Proof.
  induction s as [|c s IH]; simpl; [auto|].
  destruct (isDigit c); [|auto].
  intros H. now rewrite (IH H).
Qed.

(** When what follows cannot start with a digit, giving digits back
    never helps: only the longest run is a candidate. *)
Lemma many_blocked (s : string) (k : string -> option R) :
  (forall c t, isDigit c = true -> k (String c t) = None) ->
  many s k = k (dropDigits s).
Proof.
  intros Hk. induction s as [|c s IH]; simpl; [reflexivity|].
  destruct (isDigit c) eqn:Hc; [|reflexivity].
  rewrite IH. destruct (k (dropDigits s)); [reflexivity | now apply Hk].
Qed.

Lemma many1_blocked (s : string) (k : string -> option R) :
  (forall c t, isDigit c = true -> k (String c t) = None) ->
  many1 s k = if String.eqb (digitPrefix s) "" then None else k (dropDigits s).
Proof.
  intros Hk. destruct s as [|c s]; simpl; [reflexivity|].
  destruct (isDigit c); simpl; [now apply many_blocked | reflexivity].
Qed.

Lemma many1_first (s : string) (k : string -> option R) (r : R) :
  String.eqb (digitPrefix s) "" = false ->
  k (dropDigits s) = Some r -> many1 s k = Some r.
Proof.
  destruct s as [|c s]; simpl; [discriminate|].
  destruct (isDigit c); simpl; [intros _; apply many_first | discriminate].
Qed.

End MatcherFacts.

Section ConsumedFacts.

Lemma substring_append (l t : string) :
  String.substring 0 (String.length l) (l ++ t) = l.
Proof.
  induction l as [|c l IH]; simpl.
  - now destruct t.
  - now rewrite IH.
Qed.

Lemma length_append (l t : string) :
  String.length (l ++ t) = (String.length l + String.length t)%nat.
Proof. induction l as [|c l IH]; simpl; [reflexivity | now rewrite IH]. Qed.

Lemma consumed_append (l t : string) : consumed (l ++ t) t = l.
Proof.
  unfold consumed. rewrite length_append.
  replace (String.length l + String.length t - String.length t)%nat
    with (String.length l) by lia.
  apply substring_append.
Qed.

Lemma digits_split (s : string) : s = digitPrefix s ++ dropDigits s.
Proof.
  induction s as [|c s IH]; simpl; [reflexivity|].
  destruct (isDigit c); simpl; [now rewrite <- IH | reflexivity].
Qed.

Lemma consumed_digits (s : string) : consumed s (dropDigits s) = digitPrefix s.
Proof.
  rewrite (digits_split s) at 1. apply consumed_append.
Qed.

End ConsumedFacts.

Section PatternFacts.

Context {R : Type}.
Implicit Types (k : string -> captures -> option R) (cs : captures).

Lemma matchAt_Cat r1 r2 s cs k :
  matchAt (Cat r1 r2) s cs k
  = matchAt r1 s cs (fun rest cs' => matchAt r2 rest cs' k).
Proof. reflexivity. Qed.

Lemma matchAt_Lit l t cs k : matchAt (Lit l) (l ++ t) cs k = k t cs.
Proof. simpl. now rewrite stripPrefix_append. Qed.

Lemma matchAt_Lit_mismatch l s cs k :
  stripPrefix l s = None -> matchAt (Lit l) s cs k = None.
Proof. simpl. now intros ->. Qed.

Lemma matchAt_Group_Lit i l t cs k :
  matchAt (Group i (Lit l)) (l ++ t) cs k = k t ((i, l) :: cs).
Proof. simpl. now rewrite stripPrefix_append, consumed_append. Qed.

(** [(\d+)] before something that cannot start with a digit. *)
Lemma matchAt_Digits_blocked i s cs k :
  (forall c t cs', isDigit c = true -> k (String c t) cs' = None) ->
  matchAt (Group i Digits) s cs k
  = if String.eqb (digitPrefix s) "" then None
    else k (dropDigits s) ((i, digitPrefix s) :: cs).
Proof.
  intros Hk. simpl. rewrite many1_blocked by (intros; now apply Hk).
  now rewrite consumed_digits.
Qed.

(** [(\d+)] whose longest run lets the rest of the pattern match. *)
Lemma matchAt_Digits_first i s cs k r :
  String.eqb (digitPrefix s) "" = false ->
  k (dropDigits s) ((i, digitPrefix s) :: cs) = Some r ->
  matchAt (Group i Digits) s cs k = Some r.
Proof.
  intros Hd Hk. simpl. apply many1_first; [exact Hd|].
  now rewrite consumed_digits.
Qed.

Lemma matchAt_Digits_none i s cs k :
  String.eqb (digitPrefix s) "" = true ->
  matchAt (Group i Digits) s cs k = None.
Proof.
  destruct s as [|c s]; simpl; [reflexivity|].
  destruct (isDigit c); [discriminate | reflexivity].
Qed.

End PatternFacts.



Section AlternativeFacts.

Context {R : Type}.
Implicit Types (k : string -> captures -> option R) (cs : captures).

Lemma matchAt_Group_Alt i r1 r2 s cs k :
  matchAt (Group i (Alt r1 r2)) s cs k
  = match matchAt (Group i r1) s cs k with
    | Some x => Some x
    | None => matchAt (Group i r2) s cs k
    end.
Proof. reflexivity. Qed.

Lemma matchAt_Group_Lit_mismatch i l s cs k :
  stripPrefix l s = None -> matchAt (Group i (Lit l)) s cs k = None.
Proof. simpl. now intros ->. Qed.

End AlternativeFacts.

(** Go through the alternatives of a group of literals on a string that
    starts with a known word. *)
Ltac alternatives :=
  rewrite ?matchAt_Group_Alt;
  repeat first [ rewrite matchAt_Group_Lit_mismatch by reflexivity
               | rewrite matchAt_Group_Lit ];
  cbv beta.

Lemma space_then_blocked {R} (r : regex) c t cs (k : string -> captures -> option R) :
  isDigit c = true -> matchAt (Cat (Lit " ") r) (String c t) cs k = None.
Proof.
  intros Hc. rewrite matchAt_Cat. apply matchAt_Lit_mismatch.
  change (stripPrefix " " (String c t)) with (if Ascii.eqb " " c then Some t else None).
  now rewrite digit_not_space.
Qed.




Lemma operations_cases (P : string -> Prop) :
  P "plus" -> P "minus" -> P "times" -> P "divided by" ->
  forall op, In op operations -> P op.
Proof.
  intros H1 H2 H3 H4 op [<-|[<-|[<-|[<-|[]]]]]; assumption.
Qed.




(** The pattern matches at the start of the question when the first
    numeral is a run of digits and the second starts with one; what
    follows the leading digits of the second numeral is left out. *)
Lemma question_accepted x op y :
  In op operations -> integerLiteral x = true -> startsWithDigit y = true ->
  mathMatch (question x op y) = Some (x, op, digitPrefix y).
Proof.
  intros Hop Hx Hy. unfold integerLiteral in Hx.
  apply andb_true_iff in Hx as [Hdx Hne]. apply negb_true_iff in Hne.
  apply negb_true_iff in Hy.
  assert (Hhere : matchAt mathPattern (question x op y) [] (fun _ cs => Some cs)
                  = Some [(3%nat, digitPrefix y); (2%nat, op); (1%nat, x)]).
  { unfold question, mathPattern. rewrite matchAt_Cat, matchAt_Lit, matchAt_Cat.
    rewrite matchAt_Digits_blocked by (intros; now apply space_then_blocked).
    rewrite digitPrefix_digits, dropDigits_digits by exact Hdx.
    change (digitPrefix (" " ++ op ++ " " ++ y)) with "".
    change (dropDigits (" " ++ op ++ " " ++ y)) with (" " ++ op ++ " " ++ y).
    assert (Hx0 : x ++ "" = x) by (clear; induction x; simpl; congruence).
    rewrite Hx0, Hne.
    rewrite matchAt_Cat, matchAt_Lit, matchAt_Cat.
    revert op Hop. apply operations_cases; alternatives;
      rewrite matchAt_Cat, matchAt_Lit;
      now rewrite (matchAt_Digits_first _ _ _ _ _ Hy eq_refl). }
  unfold mathMatch.
  change (exec mathPattern (question x op y))
    with (match matchAt mathPattern (question x op y) [] (fun _ cs => Some cs) with
          | Some cs => Some cs
          | None => exec mathPattern ("hat is " ++ x ++ " " ++ op ++ " " ++ y)
          end).
  rewrite Hhere. simpl. reflexivity.
Qed.

Section IncludesFacts.

Lemma includes_here (s sub : string) : startsWith s sub = true -> includes s sub = true.
Proof. intros H. destruct s; simpl; now rewrite H. Qed.

Lemma includes_later (a s sub : string) :
  includes s sub = true -> includes (a ++ s) sub = true.
Proof.
  intros H. induction a as [|c a IH]; simpl; [exact H|].
  rewrite IH. apply orb_true_r.
Qed.


Lemma toLowerCase_append (a b : string) :
  toLowerCase (a ++ b) = toLowerCase a ++ toLowerCase b.
Proof. induction a as [|c a IH]; simpl; [reflexivity | now rewrite IH]. Qed.

End IncludesFacts.

Section CascadeFacts.

Variable now : Date.

(** [generateResponse] returns from the branch [branchTaken] names. *)
Lemma generateResponse_branch (command : string) :
  generateResponse now command = reply now command (branchTaken command).
Proof.
  unfold generateResponse, branchTaken.
  repeat match goal with
         | |- context [if ?b then _ else _] => destruct b; [reflexivity|]
         end.
  now destruct (mathMatch command) as [[[? ?] ?]|].
Qed.


Lemma time_before_arithmetic (command : string) :
  includes command "time" = true ->
  branchTaken command = Greeting \/ branchTaken command = Time.
Proof.
  intros H. unfold branchTaken. rewrite H.
  destruct (_ || _); auto.
Qed.

Lemma no_keyword (command : string) :
  keywordMatched command = false ->
  generateResponse now command
  = match mathMatch command with
    | Some (num1, operation, num2) => mathReply num1 operation num2
    | None => fallback command
    end.
Proof.
  rewrite generateResponse_branch. unfold keywordMatched, branchTaken.
  repeat match goal with
         | |- context [if ?b then _ else _] => destruct b; [discriminate|]
         end.
  now destruct (mathMatch command) as [[[? ?] ?]|].
Qed.

End CascadeFacts.

Section SoundnessFacts.

Lemma stripPrefix_Some (p s t : string) : stripPrefix p s = Some t -> s = p ++ t.
Proof.
  revert s. induction p as [|a p IH]; intros [|b s]; simpl; try congruence.
  destruct (Ascii.eqb_spec a b) as [->|]; [|discriminate].
  intros H. now rewrite (IH s H).
Qed.

Lemma digitPrefix_all (s : string) : all isDigit (digitPrefix s) = true.
Proof.
  induction s as [|c s IH]; simpl; [reflexivity|].
  destruct (isDigit c) eqn:Hc; simpl; [now rewrite Hc | reflexivity].
Qed.

Lemma digitPrefix_literal (s : string) :
  String.eqb (digitPrefix s) "" = false -> integerLiteral (digitPrefix s) = true.
Proof. intros H. unfold integerLiteral. now rewrite digitPrefix_all, H. Qed.

Context {R : Type}.
Implicit Types (k : string -> captures -> option R) (cs : captures).

Lemma matchAt_Lit_inv l s cs k r :
  matchAt (Lit l) s cs k = Some r -> exists t, s = l ++ t /\ k t cs = Some r.
Proof.
  simpl. destruct (stripPrefix l s) as [t|] eqn:Hs; [|discriminate].
  intros H. exists t. split; [now apply stripPrefix_Some | exact H].
Qed.

Lemma matchAt_Group_Lit_inv i l s cs k r :
  matchAt (Group i (Lit l)) s cs k = Some r ->
  exists t, s = l ++ t /\ k t ((i, l) :: cs) = Some r.
Proof.
  simpl. destruct (stripPrefix l s) as [t|] eqn:Hs; [|discriminate].
  apply stripPrefix_Some in Hs. subst s. rewrite consumed_append.
  intros H. now exists t.
Qed.

(** A match of the group of operation words starts with one of them. *)
Lemma matchAt_operation_inv s cs k r :
  matchAt (Group 2 (Alt (Lit "plus") (Alt (Lit "minus")
                   (Alt (Lit "times") (Lit "divided by"))))) s cs k = Some r ->
  exists op t, In op operations /\ s = op ++ t /\ k t ((2%nat, op) :: cs) = Some r.
Proof.
  rewrite !matchAt_Group_Alt. unfold operations.
  destruct (matchAt (Group 2 (Lit "plus")) s cs k) eqn:H1.
  { intros E; rewrite E in H1. apply matchAt_Group_Lit_inv in H1 as (t & ? & ?).
    exists "plus", t. simpl. tauto. }
  destruct (matchAt (Group 2 (Lit "minus")) s cs k) eqn:H2.
  { intros E; rewrite E in H2. apply matchAt_Group_Lit_inv in H2 as (t & ? & ?).
    exists "minus", t. simpl. tauto. }
  destruct (matchAt (Group 2 (Lit "times")) s cs k) eqn:H3.
  { intros E; rewrite E in H3. apply matchAt_Group_Lit_inv in H3 as (t & ? & ?).
    exists "times", t. simpl. tauto. }
  intros H4. apply matchAt_Group_Lit_inv in H4 as (t & ? & ?).
  exists "divided by", t. simpl. tauto.
Qed.

End SoundnessFacts.

(** The last [(\d+)] of a pattern takes the longest run of digits. *)
Lemma matchAt_Digits_last i s cs cs' :
  matchAt (Group i Digits) s cs (fun _ cs0 => Some cs0) = Some cs' ->
  String.eqb (digitPrefix s) "" = false /\ cs' = (i, digitPrefix s) :: cs.
Proof.
  destruct (String.eqb (digitPrefix s) "") eqn:Hd.
  - now rewrite matchAt_Digits_none.
  - rewrite (matchAt_Digits_first i s cs _ ((i, digitPrefix s) :: cs) Hd eq_refl).
    intros H. injection H as <-. now split.
Qed.

Lemma append_assoc (a b c : string) : (a ++ b) ++ c = a ++ b ++ c.
Proof. induction a as [|x a IH]; simpl; [reflexivity | now rewrite IH]. Qed.

(** What the pattern matches at the start of a string. *)
Lemma mathPattern_here (s : string) (cs : captures) :
  matchAt mathPattern s [] (fun _ cs0 => Some cs0) = Some cs ->
  exists num1 op num2 rest,
    s = question num1 op num2 ++ rest /\
    integerLiteral num1 = true /\ In op operations /\
    integerLiteral num2 = true /\
    cs = [(3%nat, num2); (2%nat, op); (1%nat, num1)].
Proof.
  unfold mathPattern. rewrite matchAt_Cat. intros H.
  apply matchAt_Lit_inv in H as (s1 & -> & H).
  rewrite matchAt_Cat in H.
  rewrite matchAt_Digits_blocked in H by (intros; now apply space_then_blocked).
  destruct (String.eqb (digitPrefix s1) "") eqn:Hd1; [discriminate|].
  rewrite matchAt_Cat in H. apply matchAt_Lit_inv in H as (s2 & Hs2 & H).
  rewrite matchAt_Cat in H.
  apply matchAt_operation_inv in H as (op & s3 & Hop & -> & H).
  rewrite matchAt_Cat in H. apply matchAt_Lit_inv in H as (s4 & -> & H).
  apply matchAt_Digits_last in H as [Hd2 ->].
  exists (digitPrefix s1), op, (digitPrefix s4), (dropDigits s4).
  repeat split; try assumption; try now apply digitPrefix_literal.
  unfold question. rewrite (digits_split s1) at 1. rewrite Hs2.
  rewrite (digits_split s4) at 1.
  now rewrite !append_assoc.
Qed.

(** What the pattern matches somewhere in a string. *)
Lemma mathMatch_sound (command num1 op num2 : string) :
  mathMatch command = Some (num1, op, num2) ->
  integerLiteral num1 = true /\ In op operations /\
  integerLiteral num2 = true /\
  exists before rest, command = before ++ question num1 op num2 ++ rest.
Proof.
  unfold mathMatch. destruct (exec mathPattern command) as [cs|] eqn:He; [|discriminate].
  assert (Hs : exists before s, command = before ++ s /\
                 matchAt mathPattern s [] (fun _ cs0 => Some cs0) = Some cs).
  { clear -He. induction command as [|c t IH].
    - simpl in He. discriminate.
    - change (exec mathPattern (String c t))
        with (match matchAt mathPattern (String c t) [] (fun _ cs => Some cs) with
              | Some cs => Some cs
              | None => exec mathPattern t
              end) in He.
      destruct (matchAt mathPattern (String c t) [] _) as [cs0|] eqn:Hm.
      + injection He as ->. now exists "", (String c t).
      + destruct (IH He) as (before & s & -> & H).
        now exists (String c before), s. }
  destruct Hs as (before & s & -> & Hm).
  apply mathPattern_here in Hm as (n1 & o & n2 & rest & -> & H1 & Ho & H2 & ->).
  simpl. intros H. injection H as <- <- <-.
  repeat split; try assumption. now exists before, rest.
Qed.

(** [case 'times'] is never reached: a command the pattern matches with
    that word contains "time". *)
Lemma times_contains_time (command num1 num2 : string) :
  mathMatch command = Some (num1, "times", num2) ->
  includes command "time" = true.
Proof.
  intros H. apply mathMatch_sound in H as (_ & _ & _ & before & rest & ->).
  unfold question. rewrite !append_assoc.
  do 4 apply includes_later. now apply includes_here.
Qed.

Lemma times_unreachable (command num1 num2 : string) :
  branchTaken command <> Arithmetic num1 "times" num2.
Proof.
  unfold branchTaken.
  repeat match goal with
         | |- context [if ?b then _ else _] =>
             destruct b eqn:?; [discriminate|]
         end.
  destruct (mathMatch command) as [[[n1 o] n2]|] eqn:Hm; [|discriminate].
  intros H. injection H as -> -> ->.
  apply times_contains_time in Hm. congruence.
Qed.


Example greeting_for_this_and_which :
  respond sampleDate "this" = greeting /\
  respond sampleDate "which" = greeting /\
  respond sampleDate "Hello there" = greeting.
Proof. repeat split. Qed.



(** C2, at the input "what is 25 times 4". The word "times" contains
    "time", and the time condition comes before the pattern: the engine
    answers with the clock reading, for every clock, and with the sample
    clock the reply does not contain "100". The pattern itself matches the
    question and its branch would answer "25 times 4 equals 100."; but no
    question "what is x times y", and no command at all, reaches that
    branch with the word "times". *)
Theorem times_question_gets_the_clock :
  (forall now, respond now "what is 25 times 4"
               = "The current time is " ++ toLocaleTimeString now ++ ".") /\
  branchTaken (toLowerCase "what is 25 times 4") = Time /\
  includes (respond sampleDate "what is 25 times 4") "100" = false /\
  mathMatch "what is 25 times 4" = Some ("25", "times", "4") /\
  mathReply "25" "times" "4" = "25 times 4 equals 100." /\
  (forall x y, branchTaken (question x "times" y) = Greeting \/
               branchTaken (question x "times" y) = Time) /\
  (forall command num1 num2,
      branchTaken command <> Arithmetic num1 "times" num2).
Proof.
  split; [reflexivity|]. split; [reflexivity|]. split; [reflexivity|].
  split; [reflexivity|]. split; [vm_compute; reflexivity|].
  split; [|exact times_unreachable].
  intros x y. apply time_before_arithmetic.
  unfold question.
  do 3 apply includes_later. now apply includes_here.
Qed.

(** C5. On "what is 10 divided by 0" no keyword condition holds, the
    pattern matches with the captures 10, "divided by" and 0, and the reply is
    "10 divided by 0 equals Infinity.": the quotient is the binary64 division
    of the two parsed numbers, printed as any number is, for a zero divisor
    and for a quotient that is not an integer (7 / 2 is printed 3.5) alike. *)
Theorem division_by_zero_is_Infinity :
  (forall now, respond now "what is 10 divided by 0"
               = "10 divided by 0 equals Infinity.") /\
  branchTaken (toLowerCase "what is 10 divided by 0")
  = Arithmetic "10" "divided by" "0" /\
  div (parseInt "10") (parseInt "0") = Infinity /\
  toString Infinity = "Infinity" /\
  includes "10 divided by 0 equals Infinity." "Infinity" = true /\
  (forall num1 num2,
      mathReply num1 "divided by" num2
      = toString (parseInt num1) ++ " divided by " ++ toString (parseInt num2)
        ++ " equals " ++ toString (div (parseInt num1) (parseInt num2)) ++ ".") /\
  (forall now, respond now "what is 7 divided by 2" = "7 divided by 2 equals 3.5.").
Proof.
  split; [intros now; vm_compute; reflexivity|].
  split; [vm_compute; reflexivity|].
  split; [vm_compute; reflexivity|].
  split; [reflexivity|].
  split; [reflexivity|].
  split; [intros num1 num2; reflexivity|].
  intros now; vm_compute; reflexivity.
Qed.




End LocalEngineFacts.

(* ================================================================== *)
(** * The chat proxy: facts *)
(* ================================================================== *)

Module ChatFunctionFacts.

Import JSString JSON Exn ChatFunction.

Section SliceFacts.

Context {A : Type}.

Lemma slice_last_ten (l : list A) :
  slice (-10) l = skipn (List.length l - 10) l.
Proof.
  unfold slice. change (-10 <? 0)%Z with true. cbv iota.
  f_equal. lia.
Qed.

Lemma slice_last_ten_split (l : list A) :
  exists older, l = (older ++ slice (-10) l)%list /\
                List.length older = (List.length l - 10)%nat /\
                List.length (slice (-10) l) = Nat.min 10 (List.length l).
Proof.
  exists (firstn (List.length l - 10) l). rewrite slice_last_ten.
  split; [|split].
  - symmetry. apply firstn_skipn.
  - rewrite length_firstn. lia.
  - rewrite length_skipn. lia.
Qed.

End SliceFacts.

Section HandlerFacts.

Variable faultMessage : Fault -> string.
Variable OPENAI_API_KEY : option string.
Variable fetch : list (string * string) -> value -> Fetched.

Local Abbreviation handler := (handler faultMessage OPENAI_API_KEY fetch).
Local Abbreviation complete := (complete faultMessage OPENAI_API_KEY fetch).
Local Abbreviation upstreamRequest := (upstreamRequest faultMessage OPENAI_API_KEY).

Lemma handler_not_preflight (req : Request) :
  String.eqb (method req) "OPTIONS" = false ->
  handler req = match complete req with
                | inl error => failed error
                | inr aiResponse => succeeded aiResponse
                end.
Proof.
  intros H. unfold handler. rewrite H. unfold tryCatch, bind, ret.
  now destruct (complete req).
Qed.

(** What the [try] block returns passed the test [!aiResponse]. *)
Lemma complete_truthy (req : Request) (aiResponse : option value) :
  complete req = ret aiResponse -> truthy aiResponse = true.
Proof.
  unfold complete, bind, ret, throw.
  destruct (upstreamRequest req) as [e|[k msgs]]; [discriminate|].
  destruct (fetch _ _) as [e|st j]; [discriminate|].
  destruct (ok st); [|discriminate].
  destruct j as [e|data]; [discriminate|].
  destruct (get faultMessage (Some data) "choices") as [e|choices]; [discriminate|].
  destruct (get faultMessage choices "0") as [e|first]; [discriminate|].
  destruct (truthy _) eqn:Ht; [|discriminate].
  intros H. injection H as <-. exact Ht.
Qed.

Lemma truthy_defined (v : option value) : truthy v = true -> exists w, v = Some w.
Proof. destruct v as [w|]; [eauto | discriminate]. Qed.

Lemma failed_fields (error : Thrown) :
  status (failed error) = 200%Z /\
  bodyField (failed error) "response" = Some (Str apology) /\
  bodyField (failed error) "success" = Some (Bool false) /\
  bodyField (failed error) "error" = Some (Str (message error)).
Proof. repeat split. Qed.

Lemma succeeded_fields (w : value) :
  status (succeeded (Some w)) = 200%Z /\
  bodyField (succeeded (Some w)) "response" = Some w /\
  bodyField (succeeded (Some w)) "success" = Some (Bool true) /\
  bodyField (succeeded (Some w)) "error" = None.
Proof. repeat split. Qed.

End HandlerFacts.

Example messages_of_twelve :
  buildMessages sampleFaults (Some (Str "and now?"))
    (Arr (map Str ["m1"; "m2"; "m3"; "m4"; "m5"; "m6";
                   "m7"; "m8"; "m9"; "m10"; "m11"; "m12"]))
  = ret (systemMessage ::
         map Str ["m3"; "m4"; "m5"; "m6"; "m7"; "m8"; "m9"; "m10"; "m11"; "m12"]
         ++ [Obj [("role", Str "user"); ("content", Str "and now?")]])%list.
Proof. reflexivity. Qed.

(** C1. For every history array, the upstream message list is the system
    instruction, then the most recent entries of the history, then the new
    user message. The history is [older ++ recent], in this order, where
    [older] holds all but the last 10 entries (none when there are 10 or
    fewer) and [recent], of length [min 10 (length history)], is what the
    list contains, entry for entry. The first entry is the object with
    role "system" and the one instruction text as content, whatever the
    request; the last entry is the object with role "user" and the
    request's [message] as content (no content when the request has no
    [message]). For a request whose body has this history and this
    message, and with a key configured, this list is the [messages] field
    of the body sent to the completion service. *)
Theorem messages_keep_last_ten
  (faultMessage : Fault -> string) (message : option value)
  (history : list value) :
  exists older recent : list value,
    history = (older ++ recent)%list /\
    List.length older = (List.length history - 10)%nat /\
    List.length recent = Nat.min 10 (List.length history) /\
    let messages :=
      (Obj [("role", Str "system"); ("content", Str systemPrompt)]
       :: recent
       ++ [Obj (("role", Str "user")
                :: match message with
                   | Some text => [("content", text)]
                   | None => []
                   end)])%list in
    buildMessages faultMessage message (Arr history) = ret messages /\
    startsWith systemPrompt "You are Nova, an advanced AI voice assistant."
    = true /\
    forall (key : string) (fields : list (string * value)),
      field "message" fields = message ->
      field "conversationHistory" fields = Some (Arr history) ->
      String.eqb key "" = false ->
      upstreamRequest faultMessage (Some key) (post (Obj fields))
      = ret (key, messages) /\
      field "messages"
        (match completionRequest messages with
         | Obj sent => sent
         | _ => []
         end)
      = Some (Arr messages).
Proof.
  destruct (slice_last_ten_split history) as (older & Hsplit & Hold & Hlen).
  exists older, (slice (-10) history).
  split; [exact Hsplit|]. split; [exact Hold|]. split; [exact Hlen|].
  cbv zeta. split; [now destruct message|]. split; [reflexivity|].
  intros key fields Hm Hh Hk. split; [|reflexivity].
  unfold upstreamRequest, destructure, requireKey, buildMessages, lastTen.
  simpl. rewrite Hh, Hk, Hm. now destruct message.
Qed.

Lemma messages_keep_last_ten_witness :
  exists older recent : list value,
    map Str ["m0"; "m1"; "m2"; "m3"; "m4"; "m5"; "m6"; "m7"; "m8"; "m9"; "m10"]
    = (older ++ recent)%list /\
    List.length older = 1%nat /\
    upstreamRequest sampleFaults (Some "sk-test")
      (post (Obj [("message", Str "and now?");
                  ("conversationHistory",
                   Arr (map Str ["m0"; "m1"; "m2"; "m3"; "m4"; "m5"; "m6";
                                 "m7"; "m8"; "m9"; "m10"]))]))
    = ret ("sk-test",
           (Obj [("role", Str "system"); ("content", Str systemPrompt)]
            :: recent
            ++ [Obj [("role", Str "user"); ("content", Str "and now?")]])%list).
Proof.
  destruct (messages_keep_last_ten sampleFaults (Some (Str "and now?"))
              (map Str ["m0"; "m1"; "m2"; "m3"; "m4"; "m5"; "m6"; "m7"; "m8";
                        "m9"; "m10"]))
    as (older & recent & Hsplit & Hold & _ & _ & _ & Hsent).
  exists older, recent. split; [exact Hsplit|]. split; [exact Hold|].
  apply (Hsent "sk-test"); reflexivity.
Defined.

(** The handler sends these messages upstream, with the configured key. *)
Lemma upstreamRequest_messages
  (faultMessage : Fault -> string) (key : string)
  (fields : list (string * value)) (history : list value) :
  field "conversationHistory" fields = Some (Arr history) ->
  String.eqb key "" = false ->
  upstreamRequest faultMessage (Some key) (post (Obj fields))
  = ret (key, (systemMessage :: slice (-10) history
               ++ [userMessage (field "message" fields)])%list).
Proof.
  intros Hh Hk.
  unfold upstreamRequest, destructure, requireKey, buildMessages, lastTen.
  simpl. now rewrite Hh, Hk.
Qed.

Section HandlerClaims.

Variable faultMessage : Fault -> string.
Variable fetch : list (string * string) -> value -> Fetched.

(** C3, as amended. Every response has status 200. A CORS preflight
    (method OPTIONS) is answered with the text "ok"; for every other
    request the body is a JSON object with a [response] field and a boolean
    [success] field, and an [error] string exactly when [success] is
    false. An upstream status outside 200..299 and an empty completion
    both give such a response, with [success] false and the error text of
    the failure. *)
Theorem handler_answers_200_json
  (OPENAI_API_KEY : option string) (req : Request) :
  let r := handler faultMessage OPENAI_API_KEY fetch req in
  status r = 200%Z /\
  (String.eqb (method req) "OPTIONS" = true -> body r = Text "ok") /\
  (String.eqb (method req) "OPTIONS" = false ->
   (exists v, bodyField r "response" = Some v) /\
   (exists success, bodyField r "success" = Some (Bool success) /\
      if success then bodyField r "error" = None
      else exists m, bodyField r "error" = Some (Str m)) /\
   (forall key messages st json,
       upstreamRequest faultMessage OPENAI_API_KEY req = ret (key, messages) ->
       fetch (upstreamHeaders key) (completionRequest messages)
       = Responded st json ->
       ok st = false ->
       bodyField r "success" = Some (Bool false) /\
       bodyField r "error"
       = Some (Str ("OpenAI API error: "
                    ++ JSNumber.toString (JSNumber.ofZ st)))) /\
   (forall key messages st data choices first,
       upstreamRequest faultMessage OPENAI_API_KEY req = ret (key, messages) ->
       fetch (upstreamHeaders key) (completionRequest messages)
       = Responded st (ret data) ->
       ok st = true ->
       get faultMessage (Some data) "choices" = ret choices ->
       get faultMessage choices "0" = ret first ->
       truthy (getOpt (getOpt first "message") "content") = false ->
       bodyField r "success" = Some (Bool false) /\
       bodyField r "error" = Some (Str "No response from AI"))).
Proof.
  intros r. subst r. split; [|split].
  - unfold handler. destruct (String.eqb (method req) "OPTIONS"); [reflexivity|].
    unfold tryCatch, bind. now destruct (complete _ _ _ req).
  - intros Hm. unfold handler. now rewrite Hm.
  - intros Hm. rewrite (handler_not_preflight _ _ _ _ Hm).
    split; [|split; [|split]].
    + destruct (complete _ _ _ req) as [e|a] eqn:Hc.
      * eexists; reflexivity.
      * apply complete_truthy, truthy_defined in Hc as [w ->]. now exists w.
    + destruct (complete _ _ _ req) as [e|a] eqn:Hc.
      * exists false. split; [reflexivity|]. now exists (message e).
      * apply complete_truthy, truthy_defined in Hc as [w ->].
        exists true. now split.
    + intros key messages st json Hu Hf Hok.
      unfold complete. rewrite Hu. cbv beta iota delta [bind ret].
      rewrite Hf, Hok. now split.
    + intros key messages st data choices first Hu Hf Hok Hc H0 Ht.
      unfold complete. rewrite Hu. cbv beta iota delta [bind ret].
      rewrite Hf, Hok. cbv beta iota delta [bind ret] in Hc, H0 |- *.
      rewrite Hc, H0, Ht. now split.
Qed.

(** C6, as amended. With no key in the environment (the variable is
    absent, or empty), every request that is not a CORS preflight and
    whose body parses to a JSON value other than [null] is answered with
    status 200, [success] false and the error "OpenAI API key not
    configured", which contains "API key". *)
Theorem missing_key_reported
  (OPENAI_API_KEY : option string) (req : Request) (parsed : value) :
  OPENAI_API_KEY = None \/ OPENAI_API_KEY = Some "" ->
  String.eqb (method req) "OPTIONS" = false ->
  json req = ret parsed -> parsed <> Null ->
  let r := handler faultMessage OPENAI_API_KEY fetch req in
  status r = 200%Z /\
  bodyField r "success" = Some (Bool false) /\
  bodyField r "error" = Some (Str "OpenAI API key not configured") /\
  includes "OpenAI API key not configured" "API key" = true.
Proof.
  intros Hk Hm Hj Hn r. subst r. rewrite (handler_not_preflight _ _ _ _ Hm).
  unfold complete, upstreamRequest, destructure, bind. rewrite Hj.
  destruct Hk as [-> | ->];
    (destruct parsed; [contradiction| | | | |]; now repeat split).
Qed.

End HandlerClaims.

Lemma handler_answers_200_json_witness :
  body (handler sampleFaults (Some "sk-test") offline preflight) = Text "ok" /\
  (let r := handler sampleFaults (Some "sk-test") tooManyRequests
              (post (Obj [("message", Str "hello")])) in
   status r = 200%Z /\
   bodyField r "success" = Some (Bool false) /\
   bodyField r "error" = Some (Str "OpenAI API error: 429")) /\
  (let r := handler sampleFaults (Some "sk-test") emptyCompletion
              (post (Obj [("message", Str "hello")])) in
   status r = 200%Z /\
   bodyField r "success" = Some (Bool false) /\
   bodyField r "error" = Some (Str "No response from AI")).
Proof.
  split; [|split].
  - pose proof (handler_answers_200_json sampleFaults offline
                  (Some "sk-test") preflight) as (_ & Hp & _).
    apply Hp. reflexivity.
  - pose proof (handler_answers_200_json sampleFaults tooManyRequests
                  (Some "sk-test") (post (Obj [("message", Str "hello")])))
      as (Hs & _ & H).
    split; [exact Hs|].
    destruct (H eq_refl) as (_ & _ & Hu & _).
    destruct (Hu "sk-test" _ 429%Z (ret (Obj [])) eq_refl eq_refl eq_refl)
      as [H1 H2].
    split; [exact H1|]. rewrite H2. vm_compute. reflexivity.
  - pose proof (handler_answers_200_json sampleFaults emptyCompletion
                  (Some "sk-test") (post (Obj [("message", Str "hello")])))
      as (Hs & _ & H).
    split; [exact Hs|].
    destruct (H eq_refl) as (_ & _ & _ & He).
    apply (He "sk-test" _ 200%Z _ _ _ eq_refl eq_refl eq_refl eq_refl eq_refl).
    reflexivity.
Defined.

Lemma preflight_body_is_not_json :
  let r := handler sampleFaults (Some "sk-test") offline preflight in
  status r = 200%Z /\ body r = Text "ok" /\
  bodyField r "response" = None /\ bodyField r "success" = None.
Proof. repeat split. Qed.

Lemma missing_key_reported_witness :
  let r := handler sampleFaults None offline (post (Obj [("message", Str "hello")])) in
  status r = 200%Z /\
  bodyField r "success" = Some (Bool false) /\
  bodyField r "error" = Some (Str "OpenAI API key not configured").
Proof.
  pose proof (missing_key_reported sampleFaults offline None
                (post (Obj [("message", Str "hello")]))
                (Obj [("message", Str "hello")]) (or_introl eq_refl)
                eq_refl eq_refl)
    as (H1 & H2 & H3 & _); [discriminate|].
  exact (conj H1 (conj H2 H3)).
Defined.

Lemma no_key_but_no_api_key_message :
  (let r := handler sampleFaults None offline preflight in
   status r = 200%Z /\ body r = Text "ok" /\
   bodyField r "success" = None /\ bodyField r "error" = None) /\
  (let r := handler sampleFaults None offline
              {| method := "POST";
                 json := throw (Error "Unexpected end of JSON input") |} in
   bodyField r "success" = Some (Bool false) /\
   bodyField r "error" = Some (Str "Unexpected end of JSON input") /\
   includes "Unexpected end of JSON input" "API key" = false).
Proof. repeat split. Qed.

End ChatFunctionFacts.

(* ================================================================== *)
(** * The conversation controller: facts *)
(* ================================================================== *)

Module ControllerFacts.

Import JSString Exn Controller.

Section FlagFacts.

Lemma run_app (es1 es2 : list Event) (st : State) :
  fst (run (es1 ++ es2) st) = fst (run es2 (fst (run es1 st))).
Proof.
  revert st. induction es1 as [|e es1 IH]; intros st; simpl; [reflexivity|].
  destruct (step e st) as [st1 f1]. specialize (IH st1).
  destruct (run (es1 ++ es2) st1) as [st2 f2].
  destruct (run es1 st1) as [st3 f3]. exact IH.
Qed.

Lemma run_snoc (es : list Event) (e : Event) (st : State) :
  fst (run (es ++ [e]) st) = fst (step e (fst (run es st))).
Proof.
  rewrite run_app. simpl. now destruct (step e (fst (run es st))).
Qed.

(** [catch] and [finally] touch neither flag but [isProcessing]. *)
Lemma catchBlock_isListening error st :
  isListening (fst (catchBlock error st)) = isListening st.
Proof. unfold catchBlock. now destruct (includes _ _). Qed.

Lemma tryBlock_isListening command outcome st :
  isListening (fst (tryBlock command outcome st)) = isListening st.
Proof.
  unfold tryBlock. destruct outcome as [error|data].
  - apply catchBlock_isListening.
  - destruct (reportsMissingKey data); [|reflexivity].
    now rewrite catchBlock_isListening.
Qed.

Lemma settled_flags command outcome st :
  isProcessing (fst (processCommandSettled command outcome st)) = false /\
  isListening (fst (processCommandSettled command outcome st)) = isListening st.
Proof.
  unfold processCommandSettled.
  pose proof (tryBlock_isListening command outcome st) as H.
  destruct (tryBlock command outcome st) as [st' effects]. simpl in *.
  now split.
Qed.

(** One step keeps the two flags exclusive. *)
Lemma step_exclusive (e : Event) (st : State) :
  exclusive st = true -> exclusive (fst (step e st)) = true.
Proof.
  unfold exclusive. intros H.
  destruct e as [r s| |text isFinal| | |command outcome]; simpl.
  - unfold mountEffect. destruct (r && s); exact H.
  - unfold clickVoiceButton, Button, toggleListening.
    destruct (isSupported st); [|exact H].
    destruct (isProcessing st) eqn:Hp; simpl; [now rewrite Hp|].
    destruct (recognitionRef st); simpl; [|now rewrite Hp].
    destruct (isListening st); simpl; now rewrite ?Hp.
  - destruct (recognitionRef st); [|exact H].
    unfold onresult. destruct isFinal; [reflexivity | exact H].
  - destruct (recognitionRef st); [reflexivity | exact H].
  - destruct (recognitionRef st); [reflexivity | exact H].
  - destruct (settle command (pending st)) as [p|]; [|exact H].
    destruct (settled_flags command outcome (setPending p st)) as [-> _].
    apply negb_true_iff, andb_false_r.
Qed.

Lemma step_sets_isProcessing (e : Event) (st : State) :
  isProcessing st = false -> isProcessing (fst (step e st)) = true ->
  exists text,
    e = Result text true /\
    step e st = processCommand text (setIsListening false (setTranscript text st)) /\
    isListening (fst (step e st)) = false.
Proof.
  intros Hp.
  destruct e as [r s| |text isFinal| | |command outcome]; simpl.
  - unfold mountEffect. destruct (r && s); simpl; intros; congruence.
  - unfold clickVoiceButton, Button, toggleListening.
    destruct (isSupported st); [|simpl; intros; congruence].
    rewrite Hp. simpl.
    destruct (recognitionRef st); simpl; [|intros; congruence].
    destruct (isListening st); simpl; intros; congruence.
  - destruct (recognitionRef st); [|simpl; intros; congruence].
    unfold onresult. destruct isFinal; simpl; [eauto | intros; congruence].
  - destruct (recognitionRef st); simpl; intros; congruence.
  - destruct (recognitionRef st); simpl; intros; congruence.
  - destruct (settle command (pending st)) as [p|]; [|simpl; intros; congruence].
    destruct (settled_flags command outcome (setPending p st)) as [-> _].
    discriminate.
Qed.

Lemma step_while_processing (e : Event) (st : State) :
  isProcessing st = true -> isListening st = false ->
  isListening (fst (step e st)) = false.
Proof.
  intros Hp Hl.
  destruct e as [r s| |text isFinal| | |command outcome]; simpl.
  - unfold mountEffect. now destruct (r && s).
  - unfold clickVoiceButton, Button. rewrite Hp. now destruct (isSupported st).
  - destruct (recognitionRef st); [|exact Hl].
    unfold onresult. now destruct isFinal.
  - now destruct (recognitionRef st).
  - now destruct (recognitionRef st).
  - destruct (settle command (pending st)) as [p|]; [|exact Hl].
    now destruct (settled_flags command outcome (setPending p st)) as [_ ->].
Qed.

End FlagFacts.

(** The guard is the disabled button: [toggleListening] itself does not
    look at [isProcessing]. *)
Lemma toggleListening_unguarded :
  toggleListening awaitingReply
  = (setIsListening true (setResponse "" (setTranscript "" awaitingReply)),
     [RecognitionStart]).
Proof. reflexivity. Qed.

(** C4. While [isProcessing] is true a click on the voice button changes
    nothing: the state is the same, field by field, and no effect is
    produced, so no capture session is started or stopped. *)
Theorem click_while_processing_does_nothing (st : State) :
  isProcessing st = true ->
  step Click st = (st, []) /\
  clickVoiceButton st = (st, []) /\
  isListening (fst (step Click st)) = isListening st /\
  isProcessing (fst (step Click st)) = isProcessing st /\
  transcript (fst (step Click st)) = transcript st /\
  response (fst (step Click st)) = response st /\
  touchesCapture (snd (step Click st)) = false.
Proof.
  intros Hp.
  assert (H : step Click st = (st, [])).
  { simpl. unfold clickVoiceButton, Button. rewrite Hp.
    now destruct (isSupported st). }
  rewrite H. now repeat split.
Qed.

Lemma click_while_processing_does_nothing_witness :
  step Click awaitingReply = (awaitingReply, []) /\
  touchesCapture (snd (step Click awaitingReply)) = false.
Proof.
  pose proof (click_while_processing_does_nothing awaitingReply eq_refl)
    as (H & _ & _ & _ & _ & _ & Ht).
  exact (conj H Ht).
Defined.

(** C7. After every sequence of events [isListening] and [isProcessing]
    are not both true; a transition that raises [isProcessing] is a final
    recognition result, whose handler has set [isListening] to false
    before [processCommand] sets [isProcessing]; and no transition raises
    [isListening] while [isProcessing] is true. *)
Theorem listening_and_processing_exclusive :
  (forall events : list Event,
      isListening (stateAfter events) && isProcessing (stateAfter events) = false) /\
  (forall (e : Event) (st : State),
      isProcessing st = false -> isProcessing (fst (step e st)) = true ->
      exists text,
        e = Result text true /\
        step e st
        = processCommand text (setIsListening false (setTranscript text st)) /\
        isListening (fst (step e st)) = false) /\
  (forall (e : Event) (st : State),
      isProcessing st = true -> isListening st = false ->
      isListening (fst (step e st)) = false).
Proof.
  split; [|split].
  - intros events. apply negb_true_iff. fold (exclusive (stateAfter events)).
    unfold stateAfter.
    induction events as [|e events IH] using rev_ind; [reflexivity|].
    rewrite run_snoc. now apply step_exclusive.
  - intros e st. apply step_sets_isProcessing.
  - intros e st. apply step_while_processing.
Qed.

Lemma listening_and_processing_exclusive_witness :
  (exists text,
      Result "what is the time" true = Result text true /\
      step (Result "what is the time" true) listeningState
      = processCommand text
          (setIsListening false (setTranscript text listeningState)) /\
      isListening (fst (step (Result "what is the time" true) listeningState))
      = false) /\
  isListening (fst (step Click awaitingReply)) = false.
Proof.
  pose proof listening_and_processing_exclusive as (_ & Hset & Hkeep).
  split.
  - apply (Hset (Result "what is the time" true) listeningState); reflexivity.
  - apply (Hkeep Click awaitingReply); reflexivity.
Defined.

Section CredentialFacts.

Lemma catchBlock_needsApiKey error st :
  needsApiKey (fst (catchBlock error st))
  = needsApiKey st || includes (message error) "API key".
Proof.
  unfold catchBlock. destruct (includes _ _); simpl.
  - now rewrite orb_true_r.
  - now rewrite orb_false_r.
Qed.

Lemma tryBlock_needsApiKey command outcome st :
  needsApiKey (fst (tryBlock command outcome st))
  = needsApiKey st || reportsMissingCredential outcome.
Proof.
  unfold tryBlock, reportsMissingCredential. destruct outcome as [error|data].
  - apply catchBlock_needsApiKey.
  - destruct (reportsMissingKey data).
    + rewrite catchBlock_needsApiKey. simpl. now rewrite orb_true_r.
    + simpl. now rewrite orb_false_r.
Qed.

Lemma settled_needsApiKey command outcome st :
  needsApiKey (fst (processCommandSettled command outcome st))
  = needsApiKey st || reportsMissingCredential outcome.
Proof.
  unfold processCommandSettled.
  pose proof (tryBlock_needsApiKey command outcome st) as H.
  now destruct (tryBlock command outcome st) as [st' effects].
Qed.

(** Only a settled engine call changes [needsApiKey]. *)
Lemma step_needsApiKey (e : Event) (st : State) :
  needsApiKey (fst (step e st))
  = needsApiKey st ||
    match e with
    | Settled command outcome =>
        match settle command (pending st) with
        | Some _ => reportsMissingCredential outcome
        | None => false
        end
    | _ => false
    end.
Proof.
  destruct e as [r s| |text isFinal| | |command outcome]; simpl;
    rewrite ?orb_false_r.
  - unfold mountEffect. now destruct (r && s).
  - unfold clickVoiceButton, Button, toggleListening.
    destruct (isSupported st); [|reflexivity].
    destruct (isProcessing st); [reflexivity|]. simpl.
    destruct (recognitionRef st); [|reflexivity].
    now destruct (isListening st).
  - destruct (recognitionRef st); [|reflexivity].
    unfold onresult. now destruct isFinal.
  - now destruct (recognitionRef st).
  - now destruct (recognitionRef st).
  - destruct (settle command (pending st)) as [p|].
    + now rewrite settled_needsApiKey.
    + now rewrite orb_false_r.
Qed.

Lemma run_needsApiKey (events : list Event) (st : State) :
  needsApiKey st = true -> needsApiKey (fst (run events st)) = true.
Proof.
  revert st. induction events as [|e events IH]; intros st H; [exact H|].
  simpl. pose proof (step_needsApiKey e st) as Hs. rewrite H in Hs.
  destruct (step e st) as [st1 f1]. specialize (IH st1 Hs).
  now destruct (run events st1).
Qed.

End CredentialFacts.

(** C8. A transition raises [needsApiKey] only when it is the settling of
    an engine call whose outcome reports a missing credential (the error
    reaching the [catch] block has "API key" in its message); no transition
    lowers it, and it stays true for the rest of every run. *)
Theorem needsApiKey_set_once :
  (forall (e : Event) (st : State),
      needsApiKey st = false -> needsApiKey (fst (step e st)) = true ->
      exists command outcome,
        e = Settled command outcome /\
        reportsMissingCredential outcome = true) /\
  (forall (e : Event) (st : State),
      needsApiKey st = true -> needsApiKey (fst (step e st)) = true) /\
  (forall earlier later : list Event,
      needsApiKey (stateAfter earlier) = true ->
      needsApiKey (stateAfter (earlier ++ later)) = true).
Proof.
  split; [|split].
  - intros e st H0 H1. rewrite step_needsApiKey, H0 in H1. simpl in H1.
    destruct e as [| | | | |command outcome]; try discriminate.
    exists command, outcome. split; [reflexivity|].
    now destruct (settle command (pending st)).
  - intros e st H. now rewrite step_needsApiKey, H.
  - intros earlier later H. unfold stateAfter in *.
    rewrite run_app. now apply run_needsApiKey.
Qed.

Lemma needsApiKey_set_once_witness :
  (exists command outcome,
      Settled "what is the time" (InvokeData noKeyReply) = Settled command outcome /\
      reportsMissingCredential outcome = true) /\
  needsApiKey
    (stateAfter ([Mount true true; Click; Result "what is the time" true;
                  Settled "what is the time" (InvokeData noKeyReply)]
                 ++ [Click; Result "hello" true;
                     Settled "hello" (InvokeError (Error "Failed to fetch"))]))
  = true.
Proof.
  pose proof needsApiKey_set_once as (Honly & _ & Hstays).
  split.
  - apply (Honly _ awaitingReply); reflexivity.
  - apply Hstays. reflexivity.
Defined.

End ControllerFacts.

(* ================================================================== *)
(** * The local response engine: further facts *)
(* ================================================================== *)

Module LocalEngineExtras.

Import JSString JSNumber RegExp LocalEngine LocalEngineFacts.

Section GapFacts.

Variable sub : string.

(** A character that does not occur in [sub] stops any occurrence. *)
Lemma stripPrefix_stopped (a : string) (c : ascii) (t : string) :
  all (fun x => negb (Ascii.eqb x c)) sub = true ->
  stripPrefix sub (a ++ String c t)
  = match stripPrefix sub a with
    | Some r => Some (r ++ String c t)
    | None => None
    end.
Proof.
  revert a. induction sub as [|x sub' IH]; intros a H; [reflexivity|].
  simpl in H. apply andb_true_iff in H as [Hx H].
  apply negb_true_iff in Hx.
  destruct a as [|y a]; simpl.
  - now rewrite Hx.
  - destruct (Ascii.eqb x y); [now apply IH | reflexivity].
Qed.

Lemma includes_empty_anywhere (s : string) :
  includes "" sub = true -> includes s sub = true.
Proof.
  destruct sub; [|discriminate]. intros _. now destruct s.
Qed.

Lemma includes_stopped (a : string) (c : ascii) (t : string) :
  all (fun x => negb (Ascii.eqb x c)) sub = true ->
  includes (a ++ String c t) sub = includes a sub || includes (String c t) sub.
Proof.
  intros H. induction a as [|y a IH].
  - simpl ("" ++ _). destruct (includes "" sub) eqn:He; [|reflexivity].
    now rewrite (includes_empty_anywhere _ He).
  - change (includes (String y a ++ String c t) sub)
      with (startsWith (String y a ++ String c t) sub
            || includes (a ++ String c t) sub).
    change (includes (String y a) sub)
      with (startsWith (String y a) sub || includes a sub).
    rewrite IH, orb_assoc. f_equal. f_equal.
    unfold startsWith. rewrite stripPrefix_stopped by exact H.
    now destruct (stripPrefix sub (String y a)).
Qed.

Hypothesis sub_no_digit : all (fun x => negb (isDigit x)) sub = true.

Lemma digit_not_in_sub (c : ascii) :
  isDigit c = true -> all (fun x => negb (Ascii.eqb x c)) sub = true.
Proof.
  intros Hc. revert sub_no_digit. clear -Hc. induction sub as [|x s IH]; simpl; [reflexivity|].
  intros H. apply andb_true_iff in H as [Hx H]. rewrite (IH H), andb_true_r.
  destruct (Ascii.eqb_spec x c) as [->|]; [|reflexivity].
  now rewrite Hc in Hx.
Qed.

(** No occurrence of [sub] starts inside a run of digits. *)
Lemma includes_after_digits (d b : string) :
  all isDigit d = true -> includes "" sub = false ->
  includes (d ++ b) sub = includes b sub.
Proof.
  intros Hd Hne. induction d as [|c d IH]; [reflexivity|].
  simpl in Hd. apply andb_true_iff in Hd as [Hc Hd].
  change (includes (String c d ++ b) sub)
    with (startsWith (String c (d ++ b)) sub || includes (d ++ b) sub).
  rewrite (IH Hd).
  replace (startsWith (String c (d ++ b)) sub) with false; [reflexivity|].
  symmetry. unfold startsWith.
  pose proof (stripPrefix_stopped "" c (d ++ b) (digit_not_in_sub c Hc)) as Hs.
  simpl ("" ++ _) in Hs. rewrite Hs.
  revert Hne. clear. now destruct sub.
Qed.

(** An occurrence of [sub] around a run of digits lies before it or
    after it. *)
Lemma includes_around_digits (a d b : string) :
  all isDigit d = true -> String.eqb d "" = false ->
  includes "" sub = false ->
  includes (a ++ d ++ b) sub = includes a sub || includes b sub.
Proof.
  intros Hd Hn Hne. destruct d as [|c d]; [discriminate|].
  change (a ++ String c d ++ b) with (a ++ String c (d ++ b)).
  simpl in Hd. apply andb_true_iff in Hd as [Hc Hd'].
  rewrite includes_stopped by now apply digit_not_in_sub.
  f_equal.
  change (String c (d ++ b)) with (String c d ++ b).
  apply includes_after_digits; [|exact Hne].
  simpl. now rewrite Hc.
Qed.

End GapFacts.

Lemma append_empty (s : string) : s ++ "" = s.
Proof. induction s as [|c s IH]; simpl; [reflexivity | now rewrite IH]. Qed.

Lemma digitPrefix_literal_id (y : string) :
  integerLiteral y = true -> digitPrefix y = y /\ startsWithDigit y = true.
Proof.
  unfold integerLiteral, startsWithDigit. intros H.
  apply andb_true_iff in H as [Hd Hn].
  pose proof (digitPrefix_digits y "" Hd) as E.
  rewrite append_empty in E. simpl in E. rewrite append_empty in E.
  now rewrite E.
Qed.

(** A keyword without digits occurs in a question over integer literals
    only if it occurs in "what is " or in the operation word with its
    spaces. *)
Lemma includes_question (kw x op y : string) :
  all (fun c => negb (isDigit c)) kw = true -> includes "" kw = false ->
  integerLiteral x = true -> integerLiteral y = true ->
  includes (question x op y) kw
  = includes "what is " kw || includes (" " ++ op ++ " ") kw.
Proof.
  intros Hk He Hx Hy. unfold integerLiteral in Hx, Hy.
  apply andb_true_iff in Hx as [Hdx Hnx]. apply negb_true_iff in Hnx.
  apply andb_true_iff in Hy as [Hdy Hny]. apply negb_true_iff in Hny.
  unfold question.
  rewrite (includes_around_digits kw Hk "what is " x _ Hdx Hnx He).
  f_equal.
  replace (" " ++ op ++ " " ++ y) with ((" " ++ op ++ " ") ++ y ++ "").
  - rewrite (includes_around_digits kw Hk _ y "" Hdy Hny He).
    now rewrite He, orb_false_r.
  - rewrite append_empty. simpl. f_equal. now rewrite append_assoc.
Qed.

(** No keyword condition holds for "what is x op y" when the operands are
    integer literals and the operation is not "times". *)
Lemma question_keyword_free (x op y : string) :
  In op ["plus"; "minus"; "divided by"] ->
  integerLiteral x = true -> integerLiteral y = true ->
  keywordMatched (question x op y) = false.
Proof.
  intros Hop Hx Hy.
  assert (Hk : forall kw,
             all (fun c => negb (isDigit c)) kw = true -> includes "" kw = false ->
             includes "what is " kw = false ->
             includes " plus " kw = false -> includes " minus " kw = false ->
             includes " divided by " kw = false ->
             includes (question x op y) kw = false).
  { intros kw H1 H2 H3 H4 H5 H6.
    rewrite includes_question, H3 by assumption.
    destruct Hop as [<-|[<-|[<-|[]]]]; assumption. }
  unfold keywordMatched, branchTaken.
  rewrite !Hk by reflexivity. simpl.
  now destruct (mathMatch (question x op y)) as [[[? ?] ?]|].
Qed.

Section RoundingFacts.

Open Scope Z_scope.

Lemma digits2_lower (m : positive) : 2 ^ (Zpos (digits2_pos m) - 1) <= Zpos m.
Proof.
  induction m as [m IH|m IH|]; simpl digits2_pos; [| |simpl; lia].
  - rewrite Pos2Z.inj_succ.
    replace (Z.succ (Zpos (digits2_pos m)) - 1) with (Z.succ (Zpos (digits2_pos m) - 1)) by lia.
    rewrite Z.pow_succ_r by lia. lia.
  - rewrite Pos2Z.inj_succ.
    replace (Z.succ (Zpos (digits2_pos m)) - 1) with (Z.succ (Zpos (digits2_pos m) - 1)) by lia.
    rewrite Z.pow_succ_r by lia. lia.
Qed.

Lemma shr_1_m (mrs : shr_record) :
  0 <= shr_m mrs -> shr_m (shr_1 mrs) = shr_m mrs / 2.
Proof.
  destruct mrs as [m r s]. cbn [shr_m]. intros Hm.
  destruct m as [|[p|p|]|p]; cbn [shr_1 shr_m];
    first [ reflexivity
          | apply Z.div_unique with 1; lia
          | apply Z.div_unique with 0; lia
          | lia ].
Qed.

Lemma iter_shr_1_m (p : positive) (mrs : shr_record) :
  0 <= shr_m mrs ->
  shr_m (iter_pos shr_1 p mrs) = shr_m mrs / 2 ^ Zpos p.
Proof.
  revert mrs. induction p as [p IH|p IH|]; intros mrs Hm; simpl iter_pos.
  - assert (H1 : 0 <= shr_m (shr_1 mrs)).
    { rewrite shr_1_m by exact Hm. apply Z.div_pos; lia. }
    assert (H2 : 0 <= shr_m (iter_pos shr_1 p (shr_1 mrs))).
    { rewrite IH by exact H1. apply Z.div_pos; [exact H1 | lia]. }
    rewrite IH by exact H2. rewrite IH by exact H1. rewrite shr_1_m by exact Hm.
    assert (E : 2 ^ Zpos p~1 = 2 * 2 ^ Zpos p * 2 ^ Zpos p).
    { replace (Zpos p~1) with (1 + Zpos p + Zpos p) by lia.
      rewrite !Z.pow_add_r by lia. reflexivity. }
    rewrite E, !Z.div_div by lia. f_equal; lia.
  - assert (H2 : 0 <= shr_m (iter_pos shr_1 p mrs)).
    { rewrite IH by exact Hm. apply Z.div_pos; [exact Hm | lia]. }
    rewrite IH by exact H2. rewrite IH by exact Hm.
    assert (E : 2 ^ Zpos p~0 = 2 ^ Zpos p * 2 ^ Zpos p).
    { replace (Zpos p~0) with (Zpos p + Zpos p) by lia.
      now rewrite Z.pow_add_r by lia. }
    rewrite E, !Z.div_div by lia. f_equal; lia.
  - now apply shr_1_m.
Qed.

(** Above the least exponent, rounding a positive mantissa to the
    format's precision leaves a positive mantissa. *)
Lemma shr_fexp_positive (m : positive) (e : Z) (l : location) :
  3 - emax - prec <= e ->
  0 < shr_m (fst (shr_fexp prec emax (Zpos m) e l)) /\
  e <= snd (shr_fexp prec emax (Zpos m) e l).
Proof.
  intros He. unfold shr_fexp, shr, fexp, SpecFloat.emin.
  set (d := Zpos (digits2_pos m)).
  assert (Hd : 2 ^ (d - 1) <= Zpos m) by apply digits2_lower.
  assert (Hd1 : 1 <= d) by (unfold d; lia).
  change (Zdigits2 (Zpos m)) with d.
  assert (Hrec : shr_m (shr_record_of_loc (Zpos m) l) = Zpos m).
  { destruct l as [|[]]; reflexivity. }
  destruct (Z.max (d + e - prec) (3 - emax - prec) - e) as [|p|p] eqn:Hn;
    simpl fst; simpl snd.
  - rewrite Hrec. lia.
  - rewrite iter_shr_1_m by (rewrite Hrec; lia). rewrite Hrec.
    split; [|lia].
    apply Z.div_str_pos. split; [lia|].
    apply Z.le_trans with (2 ^ (d - 1)); [|exact Hd].
    apply Z.pow_le_mono_r; [lia|]. unfold prec, emax in *. lia.
  - rewrite Hrec. lia.
Qed.

Lemma round_nearest_even_positive (m : Z) (l : location) :
  0 < m -> 0 < round_nearest_even m l.
Proof.
  intros Hm. destruct l as [|[]]; simpl; try lia.
  destruct (Z.even m); lia.
Qed.

Lemma binary_round_aux_positive (sx : bool) (m : positive) (e : Z) (l : location) :
  3 - emax - prec <= e ->
  (exists m' e', binary_round_aux prec emax sx (Zpos m) e l = S754_finite sx m' e')
  \/ binary_round_aux prec emax sx (Zpos m) e l = S754_infinity sx.
Proof.
  intros He. unfold binary_round_aux.
  destruct (shr_fexp_positive m e l He) as [H1 H1e].
  destruct (shr_fexp prec emax (Zpos m) e l) as [mrs' e']. simpl in H1, H1e.
  pose proof (round_nearest_even_positive _ (loc_of_shr_record mrs') H1) as H2.
  destruct (round_nearest_even (shr_m mrs') (loc_of_shr_record mrs')) as [|m1|m1];
    try lia.
  destruct (shr_fexp_positive m1 e' loc_Exact) as [H3 _]; [lia|].
  destruct (shr_fexp prec emax (Zpos m1) e' loc_Exact) as [mrs'' e'']. simpl in H3.
  destruct (shr_m mrs'') as [|m2|m2]; try lia.
  destruct (e'' <=? emax - prec); [left; eauto | now right].
Qed.

(** The Number value of a positive integer is finite and positive, or
    [Infinity]. *)
Lemma ofZ_positive (z : Z) :
  0 < z -> (exists m e, ofZ z = S754_finite false m e) \/ ofZ z = Infinity.
Proof.
  intros Hz. destruct z as [|m|m]; try lia.
  unfold ofZ, binary_normalize, binary_round.
  destruct (shl_align m 0 _) as [mz ez] eqn:Hs.
  apply binary_round_aux_positive.
  revert Hs. unfold shl_align, fexp, SpecFloat.emin.
  destruct (Z.max _ _ - 0) as [|d|d] eqn:Hd; intros H; injection H as <- <-;
    unfold prec, emax in *; lia.
Qed.

End RoundingFacts.

Section LowerCaseFacts.

Lemma lowerChar_idempotent (c : ascii) : lowerChar (lowerChar c) = lowerChar c.
Proof.
  destruct c as [[] [] [] [] [] [] [] []]; reflexivity.
Qed.

Lemma toLowerCase_idempotent (s : string) :
  toLowerCase (toLowerCase s) = toLowerCase s.
Proof.
  induction s as [|c s IH]; simpl; [reflexivity|].
  now rewrite lowerChar_idempotent, IH.
Qed.

Lemma lowerChar_digit (c : ascii) : isDigit c = true -> lowerChar c = c.
Proof.
  destruct c as [[] [] [] [] [] [] [] []]; try discriminate; reflexivity.
Qed.

Lemma toLowerCase_digits (d : string) : all isDigit d = true -> toLowerCase d = d.
Proof.
  induction d as [|c d IH]; simpl; [reflexivity|].
  intros H. apply andb_true_iff in H as [Hc Hd].
  now rewrite lowerChar_digit, IH.
Qed.

Lemma toLowerCase_question (x op y : string) :
  In op operations -> integerLiteral x = true -> integerLiteral y = true ->
  toLowerCase (question x op y) = question x op y.
Proof.
  intros Hop Hx Hy. unfold integerLiteral in Hx, Hy.
  apply andb_true_iff in Hx as [Hx _]. apply andb_true_iff in Hy as [Hy _].
  unfold question. rewrite !toLowerCase_append.
  rewrite (toLowerCase_digits x Hx), (toLowerCase_digits y Hy).
  revert op Hop. now apply operations_cases.
Qed.

End LowerCaseFacts.

(** The engine does not see the case of the utterance. *)
Theorem respond_ignores_case (now : Date) (input : string) :
  respond now (toLowerCase input) = respond now input.
Proof. unfold respond. now rewrite toLowerCase_idempotent. Qed.

(** Questions over integer literals with "plus", "minus" or "divided by"
    are answered by the arithmetic branch, with the two literals as
    operands. *)
Theorem integer_question_reaches_arithmetic (now : Date) (x op y : string) :
  In op ["plus"; "minus"; "divided by"] ->
  integerLiteral x = true -> integerLiteral y = true ->
  branchTaken (question x op y) = Arithmetic x op y /\
  generateResponse now (question x op y) = mathReply x op y /\
  respond now (question x op y) = mathReply x op y.
Proof.
  intros Hop Hx Hy.
  assert (Hop' : In op operations).
  { unfold operations. simpl in *. tauto. }
  destruct (digitPrefix_literal_id y Hy) as [Hpy Hsy].
  pose proof (question_accepted x op y Hop' Hx Hsy) as Hm. rewrite Hpy in Hm.
  pose proof (question_keyword_free x op y Hop Hx Hy) as Hk.
  assert (Hg : generateResponse now (question x op y) = mathReply x op y).
  { now rewrite no_keyword, Hm. }
  split; [|split].
  - pose proof (generateResponse_branch now (question x op y)) as Hb.
    unfold keywordMatched in Hk. unfold branchTaken in *.
    repeat match goal with
           | |- context [if ?b then _ else _] => destruct b; [discriminate Hk|]
           end.
    now rewrite Hm.
  - exact Hg.
  - unfold respond. now rewrite toLowerCase_question.
Qed.

Lemma integer_question_reaches_arithmetic_witness :
  branchTaken "what is 12 minus 30" = Arithmetic "12" "minus" "30" /\
  generateResponse sampleDate "what is 12 minus 30" = mathReply "12" "minus" "30" /\
  respond sampleDate "what is 12 minus 30" = mathReply "12" "minus" "30".
Proof.
  apply (integer_question_reaches_arithmetic sampleDate "12" "minus" "30");
    [simpl; tauto | reflexivity | reflexivity].
Defined.

Section ZeroDivisorFacts.

Lemma digitsValue_nonneg (s : string) (acc : Z) :
  all isDigit s = true -> (0 <= acc)%Z -> (0 <= digitsValue acc s)%Z.
Proof.
  revert acc. induction s as [|c s IH]; intros acc H Ha; [exact Ha|].
  change (0 <= digitsValue (10 * acc + (Z.of_nat (nat_of_ascii c) - 48)) s)%Z.
  simpl in H. apply andb_true_iff in H as [Hc Hs].
  apply IH; [exact Hs|].
  unfold isDigit in Hc. cbv zeta in Hc.
  apply andb_true_iff in Hc as [Hlo _].
  apply Nat.leb_le in Hlo. lia.
Qed.

Lemma parseInt_literal (x : string) :
  integerLiteral x = true -> parseInt x = ofZ (digitsValue 0 x).
Proof.
  intros Hx. destruct (digitPrefix_literal_id x Hx) as [Hp _].
  unfold parseInt. rewrite Hp.
  unfold integerLiteral in Hx. apply andb_true_iff in Hx as [_ Hn].
  now destruct x.
Qed.

(** A quotient by zero is printed "NaN" for a zero dividend and
    "Infinity" for any other, however large. *)
Lemma quotient_by_zero (x : string) :
  integerLiteral x = true ->
  toString (div (parseInt x) (ofZ 0))
  = if (digitsValue 0 x =? 0)%Z then "NaN" else "Infinity".
Proof.
  intros Hx. rewrite (parseInt_literal x Hx).
  assert (Hz : (0 <= digitsValue 0 x)%Z).
  { apply digitsValue_nonneg; [|lia].
    unfold integerLiteral in Hx. now apply andb_true_iff in Hx as [Hx _]. }
  destruct (Z.eqb_spec (digitsValue 0 x) 0) as [->|Hne]; [reflexivity|].
  destruct (ofZ_positive (digitsValue 0 x)) as [(m & e & ->)| ->];
    [lia | reflexivity | reflexivity].
Qed.

End ZeroDivisorFacts.

(** Dividing an integer literal by a literal of value zero never fails
    and never gives a finite number: the reply states "NaN" as the
    quotient when the dividend is zero too, and "Infinity" otherwise. *)
Theorem division_by_zero_reply (now : Date) (x y : string) :
  integerLiteral x = true -> integerLiteral y = true ->
  digitsValue 0 y = 0%Z ->
  generateResponse now (question x "divided by" y)
  = toString (parseInt x) ++ " divided by 0 equals "
    ++ (if (digitsValue 0 x =? 0)%Z then "NaN" else "Infinity") ++ ".".
Proof.
  intros Hx Hy H0.
  destruct (integer_question_reaches_arithmetic now x "divided by" y)
    as (_ & Hg & _); [simpl; tauto | exact Hx | exact Hy |].
  rewrite Hg.
  change (mathReply x "divided by" y)
    with (toString (parseInt x) ++ " divided by " ++ toString (parseInt y)
          ++ " equals " ++ toString (div (parseInt x) (parseInt y)) ++ ".").
  rewrite (parseInt_literal y Hy), H0.
  change (toString (ofZ 0)) with "0".
  now rewrite (quotient_by_zero x Hx).
Qed.

Lemma division_by_zero_reply_witness :
  generateResponse sampleDate (question "10" "divided by" "00")
  = toString (parseInt "10") ++ " divided by 0 equals " ++ "Infinity" ++ "." /\
  generateResponse sampleDate (question "0" "divided by" "0")
  = toString (parseInt "0") ++ " divided by 0 equals " ++ "NaN" ++ ".".
Proof.
  split.
  - apply (division_by_zero_reply sampleDate "10" "00"); reflexivity.
  - apply (division_by_zero_reply sampleDate "0" "0"); reflexivity.
Defined.

Section SearchFacts.

(** A match somewhere in [s] is found, if not an earlier one. *)
Lemma exec_later (r : regex) (before s : string) (cs : captures) :
  exec r s = Some cs -> exists cs', exec r (before ++ s) = Some cs'.
Proof.
  intros H. induction before as [|c before IH]; [now exists cs|].
  change (exec r (String c before ++ s))
    with (match matchAt r (String c (before ++ s)) [] (fun _ cs => Some cs) with
          | Some cs => Some cs
          | None => exec r (before ++ s)
          end).
  destruct (matchAt r _ [] _) as [cs0|]; [now exists cs0 | exact IH].
Qed.

(** What [exec] returns is a match at some position. *)
Lemma exec_somewhere (r : regex) (s : string) (cs : captures) :
  exec r s = Some cs ->
  exists before t, s = before ++ t /\
                   matchAt r t [] (fun _ cs0 => Some cs0) = Some cs.
Proof.
  induction s as [|c s IH].
  - simpl. destruct (matchAt r "" [] _) as [cs0|] eqn:Hm; [|discriminate].
    intros H. injection H as ->. now exists "", "".
  - change (exec r (String c s))
      with (match matchAt r (String c s) [] (fun _ cs => Some cs) with
            | Some cs => Some cs
            | None => exec r s
            end).
    destruct (matchAt r (String c s) [] _) as [cs0|] eqn:Hm.
    + intros H. injection H as ->. now exists "", (String c s).
    + intros H. destruct (IH H) as (before & t & -> & Ht).
      now exists (String c before), t.
Qed.

End SearchFacts.

(** The pattern matches exactly the commands that contain a question
    "what is x op y" between integer literals, for one of the four
    operation words. *)
Theorem mathMatch_characterized (command : string) :
  (exists num1 operation num2,
      mathMatch command = Some (num1, operation, num2))
  <->
  (exists before x op y rest,
      command = before ++ question x op y ++ rest /\
      integerLiteral x = true /\ In op operations /\ integerLiteral y = true).
Proof.
  split.
  - intros (num1 & operation & num2 & H).
    apply mathMatch_sound in H as (H1 & Ho & H2 & before & rest & ->).
    now exists before, num1, operation, num2, rest.
  - intros (before & x & op & y & rest & -> & Hx & Hop & Hy).
    destruct (digitPrefix_literal_id y Hy) as [_ Hsy].
    assert (Hs : startsWithDigit (y ++ rest) = true).
    { unfold startsWithDigit in *. destruct y as [|c y]; [discriminate|].
      simpl in *. now destruct (isDigit c). }
    pose proof (question_accepted x op (y ++ rest) Hop Hx Hs) as Hm.
    replace (question x op (y ++ rest)) with (question x op y ++ rest) in Hm
      by (unfold question; now rewrite !append_assoc).
    unfold mathMatch in Hm |- *.
    destruct (exec mathPattern (question x op y ++ rest)) as [cs|] eqn:He;
      [|discriminate].
    destruct (exec_later mathPattern before _ cs He) as [cs' He'].
    rewrite He'.
    apply exec_somewhere in He' as (b & t & _ & Ht).
    apply mathPattern_here in Ht as (n1 & o & n2 & r & _ & _ & _ & _ & ->).
    now exists n1, o, n2.
Qed.

Lemma mathMatch_characterized_witness :
  exists num1 operation num2,
    mathMatch "tell me what is 12 minus 30 please"
    = Some (num1, operation, num2).
Proof.
  apply (proj2 (mathMatch_characterized "tell me what is 12 minus 30 please")).
  exists "tell me ", "12", "minus", "30", " please".
  repeat split; simpl; tauto.
Defined.

End LocalEngineExtras.

(* ================================================================== *)
(** * The chat proxy: further facts *)
(* ================================================================== *)

Module ChatFunctionExtras.

Import JSString JSON Exn ChatFunction ChatFunctionFacts ChatFunctionSamples.

Section ProxyFacts.

Variable faultMessage : Fault -> string.
Variable OPENAI_API_KEY : option string.
Variable fetch : list (string * string) -> value -> Fetched.

Local Abbreviation handler := (handler faultMessage OPENAI_API_KEY fetch).
Local Abbreviation complete := (complete faultMessage OPENAI_API_KEY fetch).
Local Abbreviation upstreamRequest := (upstreamRequest faultMessage OPENAI_API_KEY).

Lemma handler_headers (req : Request) :
  headers (handler req)
  = if String.eqb (method req) "OPTIONS" then preflightHeaders
    else jsonHeaders.
Proof.
  unfold ChatFunction.handler. destruct (String.eqb (method req) "OPTIONS");
    [reflexivity|].
  unfold tryCatch, bind. now destruct (complete req).
Qed.

Lemma upstream_not_reached (req : Request) (e : Thrown) :
  String.eqb (method req) "OPTIONS" = false ->
  upstreamRequest req = throw e -> handler req = failed e.
Proof.
  intros Hm Hu. rewrite (handler_not_preflight _ _ _ _ Hm).
  unfold ChatFunction.complete. now rewrite Hu.
Qed.

Lemma upstream_reached (req : Request) (key : string) (messages : list value) :
  String.eqb (method req) "OPTIONS" = false ->
  upstreamRequest req = ret (key, messages) ->
  handler req
  = match fetch (upstreamHeaders key) (completionRequest messages) with
    | Rejected e => failed e
    | Responded st json =>
        if ok st then
          match json with
          | inl e => failed e
          | inr data =>
              match get faultMessage (Some data) "choices" with
              | inl e => failed e
              | inr choices =>
                  match get faultMessage choices "0" with
                  | inl e => failed e
                  | inr first =>
                      let aiResponse := getOpt (getOpt first "message") "content" in
                      if truthy aiResponse then succeeded aiResponse
                      else failed (Error "No response from AI")
                  end
              end
          end
        else failed (Error ("OpenAI API error: "
                            ++ JSNumber.toString (JSNumber.ofZ st)))
    end.
Proof.
  intros Hm Hu. rewrite (handler_not_preflight _ _ _ _ Hm).
  unfold ChatFunction.complete. rewrite Hu. cbv beta iota delta [bind ret throw].
  destruct (fetch _ _) as [e|st json]; [reflexivity|].
  destruct (ok st); [|reflexivity].
  destruct json as [e|data]; [reflexivity|].
  destruct (get faultMessage (Some data) "choices") as [e|choices]; [reflexivity|].
  destruct (get faultMessage choices "0") as [e|first]; [reflexivity|].
  cbv zeta. now destruct (truthy _).
Qed.

(** Every response carries the two CORS headers; the answers to requests
    other than a preflight are declared as JSON, the answer to a preflight
    is not. *)
Theorem cors_headers_on_every_response (req : Request) :
  In ("Access-Control-Allow-Origin", "*") (headers (handler req)) /\
  In ("Access-Control-Allow-Headers",
      "authorization, x-client-info, apikey, content-type")
     (headers (handler req)) /\
  (if String.eqb (method req) "OPTIONS"
   then ~ In ("Content-Type", "application/json") (headers (handler req))
   else In ("Content-Type", "application/json") (headers (handler req))).
Proof.
  rewrite handler_headers.
  destruct (String.eqb (method req) "OPTIONS"); simpl; repeat split; auto.
  intros [H|[H|[H|[]]]]; discriminate H.
Qed.

(** A request the handler cannot turn into an upstream request is
    answered without calling the completion service: a body that is not
    JSON with the parser's message, a body [null] and a history that is
    neither an array nor a string with the runtime's [TypeError]. *)
Theorem bad_request_is_not_forwarded (req : Request) :
  String.eqb (method req) "OPTIONS" = false ->
  (forall e, json req = throw e -> handler req = failed e) /\
  (json req = ret Null ->
   handler req = failed (Error (faultMessage DestructureNull))) /\
  (forall fields key history,
      json req = ret (Obj fields) ->
      OPENAI_API_KEY = Some key -> String.eqb key "" = false ->
      field "conversationHistory" fields = Some history ->
      match history with Arr _ | Str _ => False | _ => True end ->
      handler req = failed (Error (faultMessage (SliceOf history)))).
Proof.
  intros Hm. split; [|split].
  - intros e Hj. apply upstream_not_reached; [exact Hm|].
    unfold ChatFunction.upstreamRequest, destructure, bind. now rewrite Hj.
  - intros Hj. apply upstream_not_reached; [exact Hm|].
    unfold ChatFunction.upstreamRequest, destructure, bind. now rewrite Hj.
  - intros fields key history Hj Hk Hne Hh Hbad.
    apply upstream_not_reached; [exact Hm|].
    unfold ChatFunction.upstreamRequest, destructure, requireKey, buildMessages.
    unfold bind, ret. rewrite Hj, Hk, Hne. simpl. rewrite Hh.
    destruct history; try contradiction; reflexivity.
Qed.

(** A completion is passed on as it is: when the service answers with a
    status in 200..299 and a first choice whose message has a non-empty
    text content, the response is [{ response: text, success: true }]. *)
Theorem completion_passed_verbatim
  (req : Request) (key : string) (messages : list value) (st : Z)
  (fields cfields mfields : list (string * value)) (others : list value)
  (text : string) :
  String.eqb (method req) "OPTIONS" = false ->
  upstreamRequest req = ret (key, messages) ->
  fetch (upstreamHeaders key) (completionRequest messages)
  = Responded st (ret (Obj fields)) ->
  ok st = true ->
  field "choices" fields = Some (Arr (Obj cfields :: others)) ->
  field "message" cfields = Some (Obj mfields) ->
  field "content" mfields = Some (Str text) ->
  text <> "" ->
  handler req = succeeded (Some (Str text)) /\
  body (handler req)
  = Json (Obj [("response", Str text); ("success", Bool true)]).
Proof.
  intros Hm Hu Hf Hok Hc Hmsg Hcont Hne.
  assert (H : handler req = succeeded (Some (Str text))).
  { rewrite (upstream_reached req key messages Hm Hu), Hf, Hok.
    cbv beta iota delta [get ret prop]. rewrite Hc. simpl.
    rewrite Hmsg. simpl. rewrite Hcont. simpl.
    destruct (String.eqb_spec text ""); [contradiction | reflexivity]. }
  now rewrite H.
Qed.


End ProxyFacts.

Section SliceAppendFacts.

Context {A : Type}.

Lemma slice_last_ten_app (older recent : list A) :
  (10 <= List.length recent)%nat ->
  slice (-10) (older ++ recent) = slice (-10) recent.
Proof.
  intros H. rewrite !slice_last_ten, skipn_app, length_app.
  rewrite skipn_all2 by lia. simpl. f_equal. lia.
Qed.

End SliceAppendFacts.

(** Entries older than the last ten do not reach the completion service
    and cannot change the response. *)
Theorem older_history_is_ignored
  (faultMessage : Fault -> string) (OPENAI_API_KEY : option string)
  (fetch : list (string * string) -> value -> Fetched)
  (message : value) (older recent : list value) :
  (10 <= List.length recent)%nat ->
  handler faultMessage OPENAI_API_KEY fetch
    (post (Obj [("message", message);
                ("conversationHistory", Arr (older ++ recent))]))
  = handler faultMessage OPENAI_API_KEY fetch
      (post (Obj [("message", message); ("conversationHistory", Arr recent)])).
Proof.
  intros H.
  rewrite !handler_not_preflight by reflexivity.
  unfold complete, upstreamRequest, destructure, buildMessages, lastTen.
  simpl. now rewrite (slice_last_ten_app older recent H).
Qed.

(** Neither field of the body is required: without a history the
    messages are the system instruction and the user message, and
    without a message the user entry has a role and no content. *)
Theorem missing_fields_are_accepted
  (faultMessage : Fault -> string) (key : string)
  (fields : list (string * value)) :
  String.eqb key "" = false ->
  field "conversationHistory" fields = None ->
  upstreamRequest faultMessage (Some key) (post (Obj fields))
  = ret (key, [systemMessage; userMessage (field "message" fields)]) /\
  (field "message" fields = None ->
   upstreamRequest faultMessage (Some key) (post (Obj fields))
   = ret (key, [systemMessage; Obj [("role", Str "user")]])).
Proof.
  intros Hk Hh.
  assert (H : upstreamRequest faultMessage (Some key) (post (Obj fields))
              = ret (key, [systemMessage; userMessage (field "message" fields)])).
  { unfold upstreamRequest, destructure, requireKey, buildMessages, lastTen.
    simpl. now rewrite Hh, Hk. }
  split; [exact H|]. intros Hmsg. now rewrite H, Hmsg.
Qed.

Lemma bad_request_is_not_forwarded_witness :
  handler sampleFaults (Some "sk-test") (answering "Hi!")
    {| method := "POST"; json := throw (Error "Unexpected end of JSON input") |}
  = failed (Error "Unexpected end of JSON input") /\
  handler sampleFaults (Some "sk-test") (answering "Hi!") (post Null)
  = failed (Error "TypeError") /\
  handler sampleFaults (Some "sk-test") (answering "Hi!")
    (post (Obj [("message", Str "hello");
                ("conversationHistory", Bool true)]))
  = failed (Error "TypeError").
Proof.
  split; [|split].
  - destruct (bad_request_is_not_forwarded sampleFaults (Some "sk-test")
                (answering "Hi!")
                {| method := "POST";
                   json := throw (Error "Unexpected end of JSON input") |}
                eq_refl) as (H & _ & _).
    apply H. reflexivity.
  - destruct (bad_request_is_not_forwarded sampleFaults (Some "sk-test")
                (answering "Hi!") (post Null) eq_refl) as (_ & H & _).
    apply H. reflexivity.
  - destruct (bad_request_is_not_forwarded sampleFaults (Some "sk-test")
                (answering "Hi!")
                (post (Obj [("message", Str "hello");
                            ("conversationHistory", Bool true)]))
                eq_refl) as (_ & _ & H).
    apply (H [("message", Str "hello"); ("conversationHistory", Bool true)]
             "sk-test" (Bool true)); first [reflexivity | exact I].
Defined.

Lemma completion_passed_verbatim_witness :
  body (handler sampleFaults (Some "sk-test") (answering "Hi! How can I help?")
          hello)
  = Json (Obj [("response", Str "Hi! How can I help?"); ("success", Bool true)]).
Proof.
  eapply (completion_passed_verbatim sampleFaults (Some "sk-test")
            (answering "Hi! How can I help?") hello "sk-test");
    try reflexivity.
  discriminate.
Defined.


Lemma older_history_is_ignored_witness :
  handler sampleFaults (Some "sk-test") (answering "Hi!")
    (post (Obj [("message", Str "hello");
                ("conversationHistory",
                 Arr (map Str ["m1"; "m2"]
                      ++ map Str ["m3"; "m4"; "m5"; "m6"; "m7"; "m8"; "m9";
                                  "m10"; "m11"; "m12"]))]))
  = handler sampleFaults (Some "sk-test") (answering "Hi!")
      (post (Obj [("message", Str "hello");
                  ("conversationHistory",
                   Arr (map Str ["m3"; "m4"; "m5"; "m6"; "m7"; "m8"; "m9";
                                 "m10"; "m11"; "m12"]))])).
Proof.
  apply older_history_is_ignored. simpl. lia.
Defined.

Lemma missing_fields_are_accepted_witness :
  upstreamRequest sampleFaults (Some "sk-test") (post (Obj []))
  = ret ("sk-test", [systemMessage; Obj [("role", Str "user")]]).
Proof.
  destruct (missing_fields_are_accepted sampleFaults "sk-test" [] eq_refl eq_refl)
    as [_ H].
  apply H. reflexivity.
Defined.

End ChatFunctionExtras.

(* ================================================================== *)
(** * The conversation controller: further facts *)
(* ================================================================== *)

Module ControllerExtras.

Import JSString Exn Controller ControllerViews ControllerFacts.

Section HistoryFacts.

Lemma exchanges_app_aux (t : list Message) (h : list Message) :
  (exchanges h = true -> exchanges (h ++ t) = exchanges t) /\
  (forall x, exchanges (x :: h) = true ->
             exchanges ((x :: h) ++ t) = exchanges t).
Proof.
  induction h as [|y h [IH1 IH2]].
  - split; [reflexivity | discriminate].
  - split.
    + apply IH2.
    + intros x H. simpl in H |- *.
      apply andb_true_iff in H as [Hr Hh]. rewrite Hr. simpl.
      now apply IH1.
Qed.

Lemma exchanges_app (h t : list Message) :
  exchanges h = true -> exchanges (h ++ t) = exchanges t.
Proof. apply exchanges_app_aux. Qed.

Lemma catchBlock_history error st :
  conversationHistory (fst (catchBlock error st)) = conversationHistory st.
Proof. unfold catchBlock. now destruct (includes _ _). Qed.

Lemma step_history (e : Event) (st : State) :
  conversationHistory (fst (step e st))
  = (conversationHistory st ++ appended e st)%list.
Proof.
  destruct e as [r s| |text isFinal| | |command outcome]; simpl;
    rewrite ?app_nil_r.
  - unfold mountEffect. now destruct (r && s).
  - unfold clickVoiceButton, Button, toggleListening.
    destruct (isSupported st); [|reflexivity].
    destruct (isProcessing st); [reflexivity|]. simpl.
    destruct (recognitionRef st); [|reflexivity].
    now destruct (isListening st).
  - destruct (recognitionRef st); [|reflexivity].
    unfold onresult. now destruct isFinal.
  - now destruct (recognitionRef st).
  - now destruct (recognitionRef st).
  - destruct (settle command (pending st)) as [p|];
      [|destruct outcome; now rewrite app_nil_r].
    unfold processCommandSettled, tryBlock.
    destruct outcome as [error|data].
    + pose proof (catchBlock_history error (setPending p st)) as H.
      destruct (catchBlock error (setPending p st)). simpl in *.
      now rewrite app_nil_r.
    + destruct (reportsMissingKey data).
      * pose proof (catchBlock_history (Error "OpenAI API key not configured")
                      (setNeedsApiKey true (setPending p st))) as H.
        destruct (catchBlock _ _). simpl in *. now rewrite app_nil_r.
      * reflexivity.
Qed.

Lemma appended_exchange (e : Event) (st : State) :
  exchanges (appended e st) = true.
Proof.
  destruct e as [| | | | |command [error|data]]; try reflexivity.
  simpl. destruct (settle command (pending st)); [|reflexivity].
  now destruct (reportsMissingKey data).
Qed.

End HistoryFacts.

(** The history only grows, by whole exchanges: a step appends nothing, or
    the user's command and the reply, and it appends them exactly when an
    engine call settles with data that does not report a missing key;
    after every run the history is a sequence of user/assistant pairs. *)
Theorem history_grows_by_exchanges :
  (forall (e : Event) (st : State),
      exists added,
        conversationHistory (fst (step e st))
        = (conversationHistory st ++ added)%list /\
        (added = [] \/
         exists command data,
           e = Settled command (InvokeData data) /\
           reportsMissingKey data = false /\
           added = [ {| role := "user"; content := command |};
                     {| role := "assistant"; content := data_response data |} ])) /\
  (forall (command : string) (data : ChatData) (st : State) p,
      settle command (pending st) = Some p ->
      reportsMissingKey data = false ->
      conversationHistory (fst (step (Settled command (InvokeData data)) st))
      = (conversationHistory st
         ++ [ {| role := "user"; content := command |};
              {| role := "assistant"; content := data_response data |} ])%list) /\
  (forall events : list Event,
      exchanges (conversationHistory (stateAfter events)) = true).
Proof.
  split; [|split].
  - intros e st. exists (appended e st). split; [apply step_history|].
    destruct e as [| | | | |command [error|data]]; auto.
    simpl. destruct (settle command (pending st)); auto.
    destruct (reportsMissingKey data) eqn:Hk; auto.
    right. now exists command, data.
  - intros command data st p Hs Hk. rewrite step_history. simpl.
    now rewrite Hs, Hk.
  - intros events. unfold stateAfter.
    induction events as [|e events IH] using rev_ind; [reflexivity|].
    rewrite run_snoc, step_history.
    rewrite exchanges_app by exact IH. apply appended_exchange.
Qed.

Lemma history_grows_by_exchanges_witness :
  conversationHistory
    (fst (step (Settled "what is the time" (InvokeData timeReply)) awaitingReply))
  = [ {| role := "user"; content := "what is the time" |};
      {| role := "assistant"; content := data_response timeReply |} ].
Proof.
  pose proof history_grows_by_exchanges as (_ & H & _).
  apply (H "what is the time" timeReply awaitingReply []); reflexivity.
Defined.

Section PendingFacts.

Lemma step_pending (e : Event) (st : State) :
  (isProcessing st = true -> pending st <> []) ->
  isProcessing (fst (step e st)) = true -> pending (fst (step e st)) <> [].
Proof.
  intros H.
  destruct e as [r s| |text isFinal| | |command outcome]; simpl.
  - unfold mountEffect. now destruct (r && s).
  - unfold clickVoiceButton, Button, toggleListening.
    destruct (isSupported st); [|exact H].
    destruct (isProcessing st) eqn:Hp; [simpl; now rewrite Hp|]. simpl.
    destruct (recognitionRef st); simpl; [|now rewrite Hp].
    destruct (isListening st); simpl; now rewrite Hp.
  - destruct (recognitionRef st); [|exact H].
    unfold onresult. destruct isFinal; simpl; [discriminate | exact H].
  - now destruct (recognitionRef st).
  - now destruct (recognitionRef st).
  - destruct (settle command (pending st)) as [p|]; [|exact H].
    destruct (settled_flags command outcome (setPending p st)) as [-> _].
    discriminate.
Qed.

End PendingFacts.

(** [isProcessing] is true only while an engine call is outstanding. *)
Theorem processing_has_a_pending_call (events : list Event) :
  isProcessing (stateAfter events) = true -> pending (stateAfter events) <> [].
Proof.
  unfold stateAfter.
  induction events as [|e events IH] using rev_ind; [discriminate|].
  rewrite run_snoc. now apply step_pending.
Qed.

Lemma processing_has_a_pending_call_witness :
  pending (stateAfter [Mount true true; Click; Result "what is the time" true])
  <> [].
Proof.
  apply processing_has_a_pending_call. reflexivity.
Defined.

Section UnsupportedFacts.

Lemma step_unsupported (e : Event) :
  isSupportedMount e = false ->
  fst (step e initial) = initial /\ forallb isToast (snd (step e initial)) = true.
Proof.
  destruct e as [r s| |text isFinal| | |command outcome]; simpl; intros H;
    try (split; reflexivity).
  unfold mountEffect. rewrite H. now split.
Qed.

End UnsupportedFacts.

(** In a browser without speech recognition or synthesis nothing ever
    happens: as long as no mount effect finds both interfaces, the state
    is the initial one after every run, and all the component does is show
    notices. *)
Theorem unsupported_browser_stays_initial (events : list Event) :
  forallb (fun e => negb (isSupportedMount e)) events = true ->
  fst (run events initial) = initial /\
  forallb isToast (snd (run events initial)) = true.
Proof.
  induction events as [|e events IH]; [now split|].
  intros H. simpl in H. apply andb_true_iff in H as [He Hes].
  apply negb_true_iff in He.
  destruct (step_unsupported e He) as [Hst Heff].
  simpl. destruct (step e initial) as [st1 eff1]. simpl in Hst, Heff. subst st1.
  destruct (IH Hes) as [IHst IHeff].
  destruct (run events initial) as [st2 eff2]. simpl in *.
  split; [exact IHst|]. now rewrite forallb_app, Heff, IHeff.
Qed.

Lemma unsupported_browser_stays_initial_witness :
  fst (run [Mount true false; Click; Result "hello" true; RecognitionEnd;
            Settled "hello" (InvokeData noKeyReply)] initial) = initial.
Proof.
  apply unsupported_browser_stays_initial. reflexivity.
Defined.

Section SpeechFacts.




End SpeechFacts.



Section ClosureFacts.

Lemma step_closure (e : Event) (st : State) :
  isMount e = false ->
  closedOverHistory (fst (step e st)) = closedOverHistory st /\
  forall h, In h (invokedHistories (snd (step e st))) ->
            h = closedOverHistory st.
Proof.
  intros Hm.
  destruct e as [r s| |text isFinal| | |command outcome]; simpl;
    try discriminate Hm.
  - unfold clickVoiceButton, Button, toggleListening.
    destruct (isSupported st); [|now split].
    destruct (isProcessing st); [now split|]. simpl.
    destruct (recognitionRef st); [|now split].
    destruct (isListening st); now split.
  - destruct (recognitionRef st); [|now split].
    unfold onresult. destruct isFinal; simpl; [|now split].
    split; [reflexivity|]. intros h [<-|[]]. reflexivity.
  - destruct (recognitionRef st); now split.
  - destruct (recognitionRef st); now split.
  - destruct (settle command (pending st)) as [p|]; [|now split].
    unfold processCommandSettled, tryBlock, catchBlock, speak.
    destruct outcome as [error|data].
    + destruct (includes _ _); simpl; destruct (synthRef st); now split.
    + destruct (reportsMissingKey data); simpl;
        destruct (synthRef st); now split.
Qed.

Lemma invokedHistories_app (a b : list Effect) :
  invokedHistories (a ++ b) = (invokedHistories a ++ invokedHistories b)%list.
Proof.
  induction a as [|[] a IH]; simpl; try exact IH; [reflexivity|].
  now rewrite IH.
Qed.

Lemma run_closure (events : list Event) (st : State) :
  forallb (fun e => negb (isMount e)) events = true ->
  forall h, In h (invokedHistories (snd (run events st))) ->
            h = closedOverHistory st.
Proof.
  revert st. induction events as [|e events IH]; intros st H h; [intros []|].
  simpl in H. apply andb_true_iff in H as [He Hes]. apply negb_true_iff in He.
  destruct (step_closure e st He) as [Hc Hi].
  simpl. destruct (step e st) as [st1 eff1]. simpl in Hc, Hi.
  specialize (IH st1 Hes h). destruct (run events st1) as [st2 eff2].
  simpl in *. rewrite invokedHistories_app, in_app_iff.
  intros [Hin|Hin]; [now apply Hi | rewrite <- Hc; now apply IH].
Qed.

End ClosureFacts.

(** The history sent with an engine call is the one the recognizer
    callbacks closed over when the mount effect ran, not the current one:
    as long as the effect does not run again every call carries that
    history, and in a session whose effect runs once, at the start, every
    call carries the empty history. *)
Theorem invoke_sends_the_closed_over_history :
  (forall (events : list Event) (st : State),
      forallb (fun e => negb (isMount e)) events = true ->
      forall h, In h (invokedHistories (snd (run events st))) ->
                h = closedOverHistory st) /\
  (forall (r s : bool) (events : list Event),
      forallb (fun e => negb (isMount e)) events = true ->
      forall h, In h (invokedHistories (snd (run (Mount r s :: events) initial))) ->
                h = []).
Proof.
  split; [exact run_closure|].
  intros r s events H h. simpl.
  destruct (mountEffect r s initial) as [st1 eff1] eqn:Hm.
  pose proof (run_closure events st1 H h) as Hc.
  destruct (run events st1) as [st2 eff2]. simpl in *.
  rewrite invokedHistories_app, in_app_iff.
  assert (Hst : closedOverHistory st1 = [] /\ invokedHistories eff1 = []).
  { revert Hm. unfold mountEffect.
    destruct (r && s); intros E; injection E as <- <-; now split. }
  destruct Hst as [H1 H2]. rewrite H2, H1 in *.
  intros [[]|Hin]. now apply Hc.
Qed.

Lemma invoke_sends_the_closed_over_history_witness :
  conversationHistory
    (fst (run [Mount true true; Click; Result "hello" true;
               Settled "hello" (InvokeData timeReply);
               Click; Result "and now" true] initial))
  = [ {| role := "user"; content := "hello" |};
      {| role := "assistant"; content := data_response timeReply |} ] /\
  forall h,
    In h (invokedHistories
            (snd (run [Mount true true; Click; Result "hello" true;
                       Settled "hello" (InvokeData timeReply);
                       Click; Result "and now" true] initial))) ->
    h = [].
Proof.
  split; [reflexivity|].
  pose proof invoke_sends_the_closed_over_history as (_ & H).
  apply (H true true). reflexivity.
Defined.

Lemma step_settled_reply (command : string) (data : ChatData) (st : State)
  (p : list string) :
  settle command (pending st) = Some p ->
  reportsMissingKey data = false ->
  step (Settled command (InvokeData data)) st
  = (setIsProcessing false
       (setConversationHistory
          (fun prev =>
             (prev ++ [ {| role := "user"; content := command |};
                        {| role := "assistant"; content := data_response data |} ])%list)
          (setResponse (data_response data) (setPending p st))),
     speak (data_response data) true (setPending p st)).
Proof.
  intros Hs Hk. cbn [step]. rewrite Hs.
  unfold processCommandSettled, tryBlock. now rewrite Hk.
Qed.

Lemma run_step (e : Event) (rest : list Event) (st st1 st2 : State)
  (effects1 effects2 : list Effect) :
  step e st = (st1, effects1) -> run rest st1 = (st2, effects2) ->
  run (e :: rest) st = (st2, (effects1 ++ effects2)%list).
Proof. intros H1 H2. cbn [run]. now rewrite H1, H2. Qed.

Section SupportFacts.

Lemma step_isSupported (e : Event) (st : State) :
  isSupported (fst (step e st)) = isSupported st || isSupportedMount e.
Proof.
  destruct e as [r s| |text isFinal| | |command outcome]; simpl;
    rewrite ?orb_false_r.
  - unfold mountEffect. destruct (r && s); simpl;
      [now rewrite orb_true_r | now rewrite orb_false_r].
  - unfold clickVoiceButton, Button, toggleListening.
    destruct (isSupported st) eqn:Hs; [|exact Hs].
    destruct (isProcessing st); [exact Hs|]. simpl.
    destruct (recognitionRef st); [|exact Hs].
    destruct (isListening st); exact Hs.
  - destruct (recognitionRef st); [|reflexivity].
    unfold onresult. now destruct isFinal.
  - now destruct (recognitionRef st).
  - now destruct (recognitionRef st).
  - destruct (settle command (pending st)) as [p|]; [|reflexivity].
    unfold processCommandSettled, tryBlock, catchBlock.
    destruct outcome as [error|data].
    + now destruct (includes _ _).
    + destruct (reportsMissingKey data); [|reflexivity].
      now destruct (includes _ _).
Qed.

Lemma run_isSupported (events : list Event) :
  isSupported (stateAfter events) = existsb isSupportedMount events.
Proof.
  unfold stateAfter.
  induction events as [|e events IH] using rev_ind; [reflexivity|].
  rewrite run_snoc, step_isSupported, IH, existsb_app. simpl.
  now rewrite orb_false_r.
Qed.

Lemma run_exclusive (events : list Event) :
  exclusive (stateAfter events) = true.
Proof.
  unfold stateAfter.
  induction events as [|e events IH] using rev_ind; [reflexivity|].
  rewrite run_snoc. now apply step_exclusive.
Qed.

End SupportFacts.

(** What the component shows after any sequence of events. Until a mount
    effect has found both browser interfaces it returns the "Browser Not
    Supported" card: no voice button and no status text. From then on it
    shows the voice button and exactly one status text, the one that goes
    with the icon of the button: "Processing" with the spinner,
    "Listening" with the crossed microphone, the invitation to click with
    the microphone. *)
Theorem one_status_line (events : list Event) :
  if existsb isSupportedMount events
  then exists icon : Icon,
         buttonIcon (stateAfter events) = Some icon /\
         statusLines (stateAfter events)
         = [match icon with
            | Loader2 => "Processing your request..."
            | MicOff => "Listening... Speak now"
            | Mic => "Click the microphone to start"
            end]
  else buttonIcon (stateAfter events) = None /\
       statusLines (stateAfter events) = [].
Proof.
  pose proof (run_exclusive events) as H.
  rewrite <- run_isSupported.
  unfold exclusive in H. unfold statusLines, buttonIcon.
  destruct (isSupported (stateAfter events)); simpl; [|now split].
  destruct (isListening (stateAfter events)),
           (isProcessing (stateAfter events)); try discriminate H;
    eexists; split; reflexivity.
Qed.

(** One whole exchange: mount, click, an interim and a final result, the
    reply of the chat function. The component is idle again, shows the
    final transcript and the reply, has recorded the exchange, and has
    started capture, called the chat function and spoken the reply. *)
Theorem one_exchange (interim text : string) (data : ChatData) :
  reportsMissingKey data = false ->
  run [Mount true true; Click; Result interim false; Result text true;
       Settled text (InvokeData data)] initial
  = ({| isListening := false; isProcessing := false;
        transcript := text; response := data_response data;
        isSupported := true;
        conversationHistory :=
          [ {| role := "user"; content := text |};
            {| role := "assistant"; content := data_response data |} ];
        needsApiKey := false; recognitionRef := true; synthRef := true;
        closedOverHistory := []; pending := [] |},
     [RecognitionStart; Invoke text []; Speak (data_response data) true]).
Proof.
  intros Hk.
  eapply eq_trans.
  { eapply run_step; [reflexivity|].
    eapply run_step; [reflexivity|].
    eapply run_step; [reflexivity|].
    eapply run_step; [reflexivity|].
    eapply run_step; [|reflexivity].
    apply (step_settled_reply text data _ []); [|exact Hk].
    cbn [settle pending setPending setIsProcessing]. now rewrite String.eqb_refl. }
  reflexivity.
Qed.

Lemma one_exchange_witness :
  fst (run [Mount true true; Click; Result "what" false;
            Result "what is the time" true;
            Settled "what is the time" (InvokeData timeReply)] initial)
  = {| isListening := false; isProcessing := false;
       transcript := "what is the time"; response := data_response timeReply;
       isSupported := true;
       conversationHistory :=
         [ {| role := "user"; content := "what is the time" |};
           {| role := "assistant"; content := data_response timeReply |} ];
       needsApiKey := false; recognitionRef := true; synthRef := true;
       closedOverHistory := []; pending := [] |}.
Proof.
  now rewrite (one_exchange "what" "what is the time" timeReply eq_refl).
Defined.

End ControllerExtras.

(* ================================================================== *)
(** * The local variant of the controller: facts *)
(* ================================================================== *)

Module LocalControllerFacts.

Import JSString LocalEngine LocalController.

Section RunFacts.

Lemma local_run_snoc (es : list Event) (e : Event) (st : State) :
  fst (run (es ++ [e]) st) = fst (step e (fst (run es st))).
Proof.
  revert st. induction es as [|e0 es IH]; intros st; simpl.
  - now destruct (step e st).
  - destruct (step e0 st) as [st1 f1]. specialize (IH st1).
    destruct (run (es ++ [e]) st1) as [st2 f2].
    now destruct (run es st1) as [st3 f3].
Qed.

Lemma step_not_processing (e : Event) (st : State) :
  isProcessing st = false -> isProcessing (fst (step e st)) = false.
Proof.
  intros H.
  destruct e as [r s| |now text isFinal| |]; simpl.
  - unfold mountEffect. now destruct (r && s).
  - unfold clickVoiceButton, Button, toggleListening. rewrite H.
    destruct (isSupported st); [|exact H]. simpl.
    destruct (recognitionRef st); simpl; [|exact H].
    now destruct (isListening st).
  - destruct (recognitionRef st); [|exact H].
    unfold onresult. now destruct isFinal.
  - now destruct (recognitionRef st).
  - now destruct (recognitionRef st).
Qed.

End RunFacts.

(** The local variant is never left processing: [processCommand] has no
    [await], so every handler ends with [isProcessing] false and the voice
    button is never disabled between two events. *)
Theorem local_never_left_processing (events : list Event) :
  isProcessing (stateAfter events) = false /\
  (forall st, isProcessing st = false ->
              clickVoiceButton st
              = if isSupported st then toggleListening st else (st, [])).
Proof.
  split.
  - unfold stateAfter.
    induction events as [|e events IH] using rev_ind; [reflexivity|].
    rewrite local_run_snoc. now apply step_not_processing.
  - intros st H. unfold clickVoiceButton, Button. now rewrite H.
Qed.

(** One whole exchange in the local variant: mount, click, an interim
    and a final result. The component is idle again, shows the final
    transcript and the engine's reply to it, and has started capture and
    spoken that reply. *)
Theorem local_exchange (now now' : Date) (interim text : string) :
  run [Mount true true; Click; Result now' interim false; Result now text true]
      initial
  = ({| isListening := false; isProcessing := false;
        transcript := text; response := respond now text;
        isSupported := true; recognitionRef := true; synthRef := true |},
     [RecognitionStart; Speak (respond now text) true]).
Proof. reflexivity. Qed.

(** A final result is always answered: whatever the state, once the
    recognizer exists, the transcript is the recognized text, the
    response is the engine's reply to it at that moment, listening has
    stopped, and the reply is spoken if there is a synthesizer. *)
Theorem local_final_result_answered (now : Date) (text : string) (st : State) :
  recognitionRef st = true ->
  let '(st', effects) := step (Result now text true) st in
  transcript st' = text /\
  response st' = respond now text /\
  isListening st' = false /\ isProcessing st' = false /\
  effects = if synthRef st then [Speak (respond now text) true] else [].
Proof.
  intros H. simpl. rewrite H. unfold onresult, processCommand, speak. simpl.
  now repeat split.
Qed.


Lemma local_never_left_processing_witness :
  clickVoiceButton mounted = toggleListening mounted.
Proof.
  destruct (local_never_left_processing []) as [_ H].
  apply (H mounted). reflexivity.
Defined.

Lemma local_final_result_answered_witness :
  response (fst (step (Result sampleDate "What is the time" true) mounted))
  = "The current time is 3:07:15 PM.".
Proof.
  pose proof (local_final_result_answered sampleDate "What is the time" mounted
                eq_refl) as H.
  destruct (step (Result sampleDate "What is the time" true) mounted)
    as [st' effects].
  destruct H as (_ & H & _). simpl. rewrite H. reflexivity.
Defined.

End LocalControllerFacts.

(* ================================================================== *)
(** * The waveform bars: facts *)
(* ================================================================== *)

Module WaveformFacts.

Import JSNumber Waveform.

Section BarFacts.

Lemma bars_run_snoc (events : list Event) (e : Event) (st : State) :
  run (events ++ [e]) st = step e (run events st).
Proof. unfold run. now rewrite fold_left_app. Qed.

Lemma ticks_while_idle (ticks : list (nat -> Number)) (st : State) :
  interval st = false -> run (map Tick ticks) st = st.
Proof.
  intros H. induction ticks as [|t ticks IH]; [reflexivity|].
  unfold run in *. simpl. now rewrite H.
Qed.

Lemma bars_run_app (a b : list Event) (st : State) :
  run (a ++ b) st = run b (run a st).
Proof. unfold run. apply fold_left_app. Qed.

(** Runs of the effect with [isActive] true leave the bars alone. *)
Lemma active_effects_keep_bars (n : nat) (st : State) :
  bars (run (repeat (Effect true) n) st) = bars st /\
  interval (run (repeat (Effect true) n) st)
  = match n with O => interval st | S _ => true end.
Proof.
  revert st. induction n as [|n IH]; intros st; [now split|].
  change (run (repeat (Effect true) (S n)) st)
    with (run (repeat (Effect true) n) (step (Effect true) st)).
  destruct (IH (step (Effect true) st)) as [Hb Hi].
  rewrite Hb, Hi. split; [reflexivity|]. now destruct n.
Qed.

Lemma empty_bars_shape (events : list Event) :
  bars (run events initial) = [] ->
  exists ticks n,
    events = (map Tick ticks ++ repeat (Effect true) n)%list /\
    (interval (run events initial) = false -> n = O).
Proof.
  induction events as [|e events IH] using rev_ind.
  - intros _. now exists [], O.
  - rewrite bars_run_snoc. destruct e as [isActive|random]; simpl.
    + destruct isActive; simpl; [|discriminate].
      intros H. destruct (IH H) as (ticks & n & -> & _).
      exists ticks, (S n). split; [|discriminate].
      rewrite <- app_assoc. f_equal.
      change (repeat (Effect true) n ++ [Effect true])%list
        with (repeat (Effect true) n ++ repeat (Effect true) 1)%list.
      rewrite <- repeat_app. f_equal. lia.
    + destruct (interval (run events initial)) eqn:Hi; simpl; [discriminate|].
      intros H. destruct (IH H) as (ticks & n & -> & Hn).
      rewrite (Hn eq_refl). exists (ticks ++ [random])%list, O.
      split; [|reflexivity]. simpl. rewrite !app_nil_r. rewrite map_app.
      reflexivity.
Qed.

End BarFacts.

(** There are twelve bars or none, and none exactly until the effect has
    run inactive or a running interval has fired: the bars are empty if
    and only if all that happened is ticks with no interval running (none
    exists before the first run of the effect) followed by runs of the
    effect with [isActive] true. Every tick of a running interval replaces
    all twelve bars, each by its own random draw times 100 plus 20. *)
Theorem twelve_bars_or_none (events : list Event) :
  (List.length (bars (run events initial)) = 12%nat \/
   bars (run events initial) = []) /\
  (bars (run events initial) = [] <->
   exists (ticks : list (nat -> Number)) (n : nat),
     events = (map Tick ticks ++ repeat (Effect true) n)%list) /\
  (forall random st, interval st = true ->
     bars (step (Tick random) st)
     = map (fun i => add (mul (random i) (ofZ 100)) (ofZ 20)) (seq 0 12)).
Proof.
  split; [|split].
  - induction events as [|e events IH] using rev_ind; [now right|].
    rewrite bars_run_snoc. destruct e as [isActive|random]; simpl.
    + destruct isActive; [exact IH | now left].
    + destruct (interval (run events initial)); [now left | exact IH].
  - split.
    + intros H. destruct (empty_bars_shape events H) as (ticks & n & He & _).
      now exists ticks, n.
    + intros (ticks & n & ->). rewrite bars_run_app.
      rewrite (ticks_while_idle ticks initial eq_refl).
      now destruct (active_effects_keep_bars n initial) as [-> _].
  - intros random st H. simpl. now rewrite H.
Qed.

(** An inactive visualizer is flat and stays flat: once the effect has
    run with [isActive] false the twelve bars are 20, and no tick changes
    them, since the cleanup cleared the interval. *)
Theorem inactive_bars_stay_flat
  (events : list Event) (ticks : list (nat -> Number)) :
  run (events ++ Effect false :: map Tick ticks) initial
  = {| bars := repeat (ofZ 20) 12; interval := false |}.
Proof.
  unfold run. rewrite fold_left_app. simpl.
  now apply (ticks_while_idle ticks).
Qed.


Lemma twelve_bars_or_none_witness :
  bars (step (Tick halves) (step (Effect true) initial))
  = map (fun i => add (mul (halves i) (ofZ 100)) (ofZ 20)) (seq 0 12).
Proof.
  destruct (twelve_bars_or_none []) as (_ & _ & H).
  apply H. reflexivity.
Defined.

End WaveformFacts.
